(** * limacharlie/USP.py: the [usp validate] command line front-end

    A shallow embedding of [src/limacharlie/USP.py].  The program is a
    straight-line script around one remote call: it loads and shape-checks
    local files, issues [Manager.validateUSP], and renders the response.
    Everything it does is an effect (file reads, writes to stdout and
    stderr, the remote call, [sys.exit]), so the embedding is a small
    writer-and-exit monad over a trace of events; what the program cannot
    decide on its own (the file system, the JSON and YAML libraries, the
    remote service) is gathered in the record [world]. *)

From Stdlib Require Import String Ascii List ZArith Bool Lia DecimalString DecimalNat.
Import ListNotations.
Open Scope string_scope.
Set Warnings "-register-all".

(** [++] joins strings throughout; lists are joined with [+++]. *)
Infix "+++" := app (right associativity, at level 60).

(** ** Python values *)

(** The values [json.loads] and [yaml.safe_load] produce and the service
    returns.  A dict is an association list: Python dicts iterate in
    insertion order and the summary renderer prints in that order.  A float
    is kept as the two observations the program makes of it: whether it is
    non-zero (truthiness) and how [str] shows it. *)
Inductive pyval : Type :=
| PNone
| PBool (b : bool)
| PInt (z : Z)
| PFloat (nonzero : bool) (shown : string)
| PStr (s : string)
| PList (l : list pyval)
| PDict (d : list (string * pyval)).

(** What a library call gives back: a value, or the text of the exception. *)
Inductive result (A : Type) : Type :=
| Ok (a : A)
| Err (e : string).
Arguments Ok {A} a.
Arguments Err {A} e.

(** [json.loads(text)]: the value, a [json.JSONDecodeError] with its text,
    or an exception of another class (a RecursionError on input nested too
    deep, a ValueError on an integer literal beyond the digit limit), with
    the name of the class and its text. *)
Inductive json_result : Type :=
| JsonValue (v : pyval)
| JsonDecodeError (e : string)
| JsonOtherError (exn e : string).

(** [open(path, 'rb').read()]. *)
Inductive file_result : Type :=
| NoSuchFile (e : string)     (* FileNotFoundError, with its [str] *)
| IOFailure (e : string)      (* any other exception of open/read *)
| Bytes (content : string).

Definition nl : string := String (ascii_of_nat 10) EmptyString.
Definition dquote : string := String (ascii_of_nat 34) EmptyString.

Definition str_of_nat (n : nat) : string := NilZero.string_of_uint (Nat.to_uint n).
Definition str_of_Z (z : Z) : string := NilZero.string_of_int (Z.to_int z).

(** Python truthiness, [bool(v)]. *)
Definition truthy (v : pyval) : bool :=
  match v with
  | PNone => false
  | PBool b => b
  | PInt z => negb (Z.eqb z 0)
  | PFloat nonzero _ => nonzero
  | PStr s => negb (String.eqb s "")
  | PList l => match l with [] => false | _ => true end
  | PDict d => match d with [] => false | _ => true end
  end.

(** Truthiness of an argparse attribute of [type=str] and [default=None]. *)
Definition truthy_arg (o : option string) : bool :=
  match o with
  | Some s => negb (String.eqb s "")
  | None => false
  end.

Definition is_None (v : pyval) : bool :=
  match v with PNone => true | _ => false end.

(** [isinstance(v, list)]. *)
Definition is_list (v : pyval) : bool :=
  match v with PList _ => true | _ => false end.

(** [d.get(key, default)] on the association list of a dict. *)
Fixpoint dict_get (d : list (string * pyval)) (key : string) (default : pyval) : pyval :=
  match d with
  | [] => default
  | (k, v) :: rest => if String.eqb k key then v else dict_get rest key default
  end.

(** ** The command line namespace and the request *)

Module args.
(** The attributes [main]'s parser stores, under their [dest] names. *)
Record Namespace : Type := {
  action : string;
  platform : string;
  mapping : option string;
  mapping_file : option string;
  mappings_file : option string;
  input : option string;
  input_file : option string;
  json_input : bool;
  hostname : option string;
  indexing_file : option string;
  output_format : string
}.
End args.

(** The keyword arguments of [man.validateUSP]. *)
Record request : Type := {
  req_platform : string;
  req_hostname : option string;
  req_mapping : pyval;
  req_mappings : pyval;
  req_indexing : pyval;
  req_text_input : pyval;
  req_json_input : pyval
}.

(** The dict the service returns, [{errors: [...], results: [...]}]; either
    key may be missing, which [result.get(key, [])] reads as the empty list. *)
Record response : Type := {
  resp_errors : option (list pyval);
  resp_results : option (list pyval)
}.

(** [result.get(key, [])] on a response. *)
Definition get_list (field : option (list pyval)) : list pyval :=
  match field with
  | Some l => l
  | None => []
  end.

(** ** Effects *)

Inductive event : Type :=
| EOpen (path : string)          (* a file was opened and read *)
| EStdout (text : string)        (* one [print]: its text and the newline *)
| EStderr (text : string)        (* one [sys.stderr.write] *)
| EApiCall (req : request).      (* [man.validateUSP] was invoked *)

(** How a computation ends: with a value, by [sys.exit(code)], or with an
    exception nobody catches (the interpreter then prints a traceback and
    the process status is 1). *)
Inductive outcome (A : Type) : Type :=
| Ret (a : A)
| Exit (code : Z)
| Raise (exn : string).
Arguments Ret {A} a.
Arguments Exit {A} code.
Arguments Raise {A} exn.

Definition M (A : Type) : Type := (list event * outcome A)%type.

Definition ret {A} (a : A) : M A := ([], Ret a).

Definition bind {A B} (m : M A) (k : A -> M B) : M B :=
  match m with
  | (t, Ret a) => let (t', o) := k a in ((t ++ t')%list, o)
  | (t, Exit c) => (t, Exit c)
  | (t, Raise e) => (t, Raise e)
  end.

Notation "x <- m ;; k" := (bind m (fun x => k))
  (at level 61, m at next level, right associativity).
Notation "m ;;; k" := (bind m (fun _ => k))
  (at level 61, right associativity).

Definition emit (e : event) : M unit := ([e], Ret tt).
Definition raise {A} (exn : string) : M A := ([], Raise exn).
Definition sys_exit {A} (code : Z) : M A := ([], Exit code).

(** [print(s)]. *)
Definition print (s : string) : M unit := emit (EStdout (s ++ nl)).

(** [for x in xs: body(x)]. *)
Fixpoint for_each {A} (xs : list A) (body : A -> M unit) : M unit :=
  match xs with
  | [] => ret tt
  | x :: rest => body x ;;; for_each rest body
  end.

(** Status of the process when the script ends in outcome [o]. *)
Definition exit_code {A} (o : outcome A) : Z :=
  match o with
  | Ret _ => 0
  | Exit c => c
  | Raise _ => 1
  end.

Definition stdout_of (t : list event) : list string :=
  flat_map (fun e => match e with EStdout s => [s] | _ => [] end) t.
Definition stderr_of (t : list event) : list string :=
  flat_map (fun e => match e with EStderr s => [s] | _ => [] end) t.
Definition api_calls (t : list event) : list request :=
  flat_map (fun e => match e with EApiCall r => [r] | _ => [] end) t.
Definition opened (t : list event) : list string :=
  flat_map (fun e => match e with EOpen p => [p] | _ => [] end) t.

(** ** The program *)

(** The world the script runs in: the file system, the libraries it calls
    and the remote service. *)
Record world : Type := {
  fs : string -> file_result;
  utf8_decode : string -> result string;      (* bytes.decode('utf-8') *)
  json_loads : string -> json_result;
  yaml_safe_load : string -> result pyval;
  json_dumps : pyval -> string;               (* json.dumps(v, indent=2) *)
  yaml_safe_dump : pyval -> string;           (* default_flow_style=False *)
  str_repr : string -> string;                (* repr of a str *)
  Manager : result unit;                      (* Manager(None, None) *)
  validateUSP : request -> result response;
  argparse_error : list string -> string;     (* usage text of a rejected argv *)
  argparse_help : string;                     (* text of --help *)
  traceback : string -> string                (* what the interpreter prints for
                                                 an exception nobody catches *)
}.

Section Program.

Variable w : world.

(** [repr(v)]. *)
Fixpoint py_repr (v : pyval) : string :=
  match v with
  | PNone => "None"
  | PBool true => "True"
  | PBool false => "False"
  | PInt z => str_of_Z z
  | PFloat _ shown => shown
  | PStr s => str_repr w s
  | PList l => "[" ++ String.concat ", " (map py_repr l) ++ "]"
  | PDict d =>
      "{" ++ String.concat ", "
               (map (fun kv => match kv with
                               | (k, x) => str_repr w k ++ ": " ++ py_repr x
                               end) d) ++ "}"
  end.

(** [str(v)], what an f-string field [{v}] shows. *)
Definition py_str (v : pyval) : string :=
  match v with
  | PStr s => s
  | _ => py_repr v
  end.

(** [v.get(key, default)]: only a dict has the method. *)
Definition py_get (v : pyval) (key : string) (default : pyval) : M pyval :=
  match v with
  | PDict d => ret (dict_get d key default)
  | _ => raise "AttributeError"
  end.

(** [v.items()]. *)
Definition py_items (v : pyval) : M (list (string * pyval)) :=
  match v with
  | PDict d => ret d
  | _ => raise "AttributeError"
  end.

(** [isinstance(v, str)]. *)
Definition is_str (v : pyval) : bool :=
  match v with PStr _ => true | _ => false end.

(** USP.py 16-29. *)
Definition printData (data : pyval) : M unit :=
  if is_str data then print (py_str data)
  else print (yaml_safe_dump w data).

(** USP.py 32-43. *)
Definition reportError {A} (msg : string) : M A :=
  emit (EStderr (msg ++ nl)) ;;; sys_exit 1.

(** USP.py 46-68. *)
Definition _load_file_content (file_path : string) (as_json : bool) : M pyval :=
  match fs w file_path with
  | NoSuchFile _ => reportError ("File not found: " ++ file_path)
  | IOFailure e => reportError ("Error reading file " ++ file_path ++ ": " ++ e)
  | Bytes raw =>
      emit (EOpen file_path) ;;;
      match utf8_decode w raw with
      | Err e => reportError ("Error reading file " ++ file_path ++ ": " ++ e)
      | Ok content =>
          if as_json then
            match json_loads w content with
            | JsonValue v => ret v
            | JsonDecodeError e =>
                reportError ("Invalid JSON in file " ++ file_path ++ ": " ++ e)
            | JsonOtherError _ e =>
                reportError ("Error reading file " ++ file_path ++ ": " ++ e)
            end
          else ret (PStr content)
      end
  end.

(** USP.py 71-94. *)
Definition _load_mapping (ns : args.Namespace) : M pyval :=
  if truthy_arg (args.mapping_file ns) then
    match args.mapping_file ns with
    | None => ret PNone
    | Some path =>
        match fs w path with
        | NoSuchFile e | IOFailure e => reportError ("Error loading mapping file: " ++ e)
        | Bytes content =>
            emit (EOpen path) ;;;
            match yaml_safe_load w content with
            | Ok v => ret v
            | Err e => reportError ("Error loading mapping file: " ++ e)
            end
        end
    end
  else if truthy_arg (args.mapping ns) then
    match args.mapping ns with
    | None => ret PNone
    | Some text =>
        match json_loads w text with
        | JsonValue v => ret v
        | JsonDecodeError e => reportError ("Invalid JSON in mapping argument: " ++ e)
        | JsonOtherError exn _ => raise exn
        end
    end
  else ret PNone.

(** USP.py 112. *)
Definition builtin_parser_platforms : list string :=
  ["cef"; "wel"; "gcp"; "aws"; "1password"; "duo"; "slack"].

(** [x in xs] on a list of strings. *)
Definition str_in (x : string) (xs : list string) : bool :=
  existsb (String.eqb x) xs.

Definition mapping_required_msg (platform : string) : string :=
  "Platform " ++ dquote ++ platform ++ dquote ++ " requires a mapping configuration." ++ nl ++
  "Use --mapping, --mapping-file, or --mappings-file to provide one." ++ nl ++
  "Platforms with built-in parsers (no mapping required): " ++
  String.concat ", " builtin_parser_platforms.

(** USP.py 114-121: load the mapping, require one where no parser is built in. *)
Definition do_validate_mapping (ns : args.Namespace) : M pyval :=
  mapping <- _load_mapping ns ;;
  (if is_None mapping && match args.mappings_file ns with None => true | Some _ => false end
   then
     if negb (str_in (args.platform ns) builtin_parser_platforms)
     then reportError (mapping_required_msg (args.platform ns))
     else ret tt
   else ret tt) ;;;
  ret mapping.

(** USP.py 123-128. *)
Definition do_validate_mappings (ns : args.Namespace) : M pyval :=
  if truthy_arg (args.mappings_file ns) then
    match args.mappings_file ns with
    | None => ret PNone
    | Some path =>
        mappings <- _load_file_content path true ;;
        if negb (is_list mappings)
        then reportError "--mappings-file must contain a JSON array of mapping descriptors"
        else ret mappings
    end
  else ret PNone.

(** USP.py 130-153: the pair [(text_input, json_input)]. *)
Definition do_validate_input (ns : args.Namespace) : M (pyval * pyval) :=
  loaded <-
    (if truthy_arg (args.input_file ns) then
       match args.input_file ns with
       | None => ret (PNone, PNone)
       | Some path =>
           if args.json_input ns then
             json_input <- _load_file_content path true ;;
             if negb (is_list json_input)
             then reportError "JSON input must be an array of objects"
             else ret (PNone, json_input)
           else
             text_input <- _load_file_content path false ;;
             ret (text_input, PNone)
       end
     else if truthy_arg (args.input ns) then
       match args.input ns with
       | None => ret (PNone, PNone)
       | Some text =>
           if args.json_input ns then
             match json_loads w text with
             | JsonValue json_input =>
                 if negb (is_list json_input)
                 then reportError "JSON input must be an array of objects"
                 else ret (PNone, json_input)
             | JsonDecodeError e => reportError ("Invalid JSON in input argument: " ++ e)
             | JsonOtherError exn _ => raise exn
             end
           else ret (PStr text, PNone)
       end
     else ret (PNone, PNone)) ;;
  let (text_input, json_input) := loaded in
  if is_None text_input && is_None json_input
  then reportError "Either --input or --input-file is required"
  else ret (text_input, json_input).

(** USP.py 155-160. *)
Definition do_validate_indexing (ns : args.Namespace) : M pyval :=
  if truthy_arg (args.indexing_file ns) then
    match args.indexing_file ns with
    | None => ret PNone
    | Some path =>
        indexing <- _load_file_content path true ;;
        if negb (is_list indexing)
        then reportError "--indexing-file must contain a JSON array of indexing rules"
        else ret indexing
    end
  else ret PNone.

(** USP.py 111-161: everything before the remote call, ending in the
    keyword arguments the call will receive. *)
Definition do_validate_request (ns : args.Namespace) : M request :=
  mapping <- do_validate_mapping ns ;;
  mappings <- do_validate_mappings ns ;;
  inputs <- do_validate_input ns ;;
  indexing <- do_validate_indexing ns ;;
  ret {| req_platform := args.platform ns;
         req_hostname := args.hostname ns;
         req_mapping := mapping;
         req_mappings := mappings;
         req_indexing := indexing;
         req_text_input := fst inputs;
         req_json_input := snd inputs |}.

(** USP.py 162-175.  The constructor call sits outside the [try]. *)
Definition do_validate_call (req : request) : M response :=
  match Manager w with
  | Err e => raise e
  | Ok _ =>
      emit (EApiCall req) ;;;
      match validateUSP w req with
      | Ok result => ret result
      | Err e => reportError ("API error: " ++ e)
      end
  end.

(** USP.py 224-226: the body of the loop over [evt.items()]. *)
Definition show_field (kv : string * pyval) : M unit :=
  match kv with
  | (key, value) =>
      if negb (String.eqb key "routing")
      then print ("  " ++ key ++ ": " ++ py_str value)
      else ret tt
  end.

(** USP.py 215-227: the body of the summary loop for the [i]-th event. *)
Definition show_event (i : nat) (event : pyval) : M unit :=
  print ("Event " ++ str_of_nat i ++ ":") ;;;
  routing <- py_get event "routing" (PDict []) ;;
  (if truthy routing then
     this <- py_get routing "this" (PDict []) ;;
     fallback <- py_get this "hostname" (PStr "") ;;
     hostname <- py_get routing "hostname" fallback ;;
     if truthy hostname
     then print ("  hostname: " ++ py_str hostname)
     else ret tt
   else ret tt) ;;;
  evt <- py_get event "event" event ;;
  items <- py_items evt ;;
  for_each items show_field ;;;
  print "".

(** [for i, event in enumerate(results, i): ...]. *)
Fixpoint show_events (i : nat) (events : list pyval) : M unit :=
  match events with
  | [] => ret tt
  | event :: rest => show_event i event ;;; show_events (S i) rest
  end.

Definition empty_result_text : list string :=
  [ "VALIDATION FAILED" ++ nl;
    "WARNING: No events were parsed from the sample data." ++ nl;
    "This usually indicates one of the following issues:";
    "  - The parsing_re regex does not match the input format";
    "  - The platform type does not match the data format";
    "  - The sample data is empty or contains only whitespace";
    "";
    "Suggestions:";
    "  - Verify your parsing_re regex matches the sample data";
    "  - Check that the platform matches your data format (text, json, cef, etc.)";
    "  - Ensure the sample file contains valid log data" ].

(** USP.py 177-227. *)
Definition do_validate_render (ns : args.Namespace) (result : response) : M unit :=
  let errors := get_list (resp_errors result) in
  let results := get_list (resp_results result) in
  if truthy (PList errors) then
    print ("VALIDATION FAILED" ++ nl) ;;;
    print "Errors:" ;;;
    for_each errors (fun err => print ("  - " ++ py_str err)) ;;;
    print "" ;;;
    (if truthy (PList results)
     then print ("Partially parsed " ++ str_of_nat (length results)
                 ++ " event(s) before failure.")
     else ret tt) ;;;
    sys_exit 1
  else if Nat.eqb (length results) 0 then
    for_each empty_result_text print ;;;
    sys_exit 1
  else
    print ("VALIDATION SUCCESSFUL" ++ nl) ;;;
    print ("Parsed " ++ str_of_nat (length results) ++ " event(s):" ++ nl) ;;;
    if String.eqb (args.output_format ns) "json" then
      print (json_dumps w (PList results))
    else if String.eqb (args.output_format ns) "yaml" then
      print (yaml_safe_dump w (PList results))
    else
      show_events 1 results.

(** USP.py 97-227. *)
Definition do_validate (ns : args.Namespace) : M unit :=
  req <- do_validate_request ns ;;
  result <- do_validate_call req ;;
  do_validate_render ns result.

(** *** The argument parser of [main] (USP.py 246-347)

    The fragment of argparse modelled: every option is written with one of
    its exact option strings and a valued option takes the next token as
    its value.  An argv that uses anything else (abbreviated options,
    [--opt=value], [-pVALUE], [--], a value that begins with a dash) is
    reported as [Unmodelled]. *)
Inductive parse_result : Type :=
| Parsed (ns : args.Namespace)
| UsageError           (* parser.error: usage on stderr, exit status 2 *)
| Help                 (* -h/--help: help on stdout, exit status 0 *)
| Unmodelled.

Definition platform_choices : list string := ["text"; "json"; "cef"; "gcp"; "aws"].
Definition output_format_choices : list string := ["summary"; "json"; "yaml"].

(** The [default=] of every argument. *)
Definition defaults : args.Namespace :=
  {| args.action := "";
     args.platform := "text";
     args.mapping := None;
     args.mapping_file := None;
     args.mappings_file := None;
     args.input := None;
     args.input_file := None;
     args.json_input := false;
     args.hostname := None;
     args.indexing_file := None;
     args.output_format := "summary" |}.

Inductive option_action : Type :=
| StoreTrue (set : args.Namespace -> args.Namespace)
| Store (choices : option (list string)) (set : string -> args.Namespace -> args.Namespace).

Import args.

Definition set_action v ns :=
  {| action := v; platform := platform ns; mapping := mapping ns;
     mapping_file := mapping_file ns; mappings_file := mappings_file ns;
     input := input ns; input_file := input_file ns; json_input := json_input ns;
     hostname := hostname ns; indexing_file := indexing_file ns;
     output_format := output_format ns |}.
Definition set_platform v ns :=
  {| action := action ns; platform := v; mapping := mapping ns;
     mapping_file := mapping_file ns; mappings_file := mappings_file ns;
     input := input ns; input_file := input_file ns; json_input := json_input ns;
     hostname := hostname ns; indexing_file := indexing_file ns;
     output_format := output_format ns |}.
Definition set_mapping v ns :=
  {| action := action ns; platform := platform ns; mapping := Some v;
     mapping_file := mapping_file ns; mappings_file := mappings_file ns;
     input := input ns; input_file := input_file ns; json_input := json_input ns;
     hostname := hostname ns; indexing_file := indexing_file ns;
     output_format := output_format ns |}.
Definition set_mapping_file v ns :=
  {| action := action ns; platform := platform ns; mapping := mapping ns;
     mapping_file := Some v; mappings_file := mappings_file ns;
     input := input ns; input_file := input_file ns; json_input := json_input ns;
     hostname := hostname ns; indexing_file := indexing_file ns;
     output_format := output_format ns |}.
Definition set_mappings_file v ns :=
  {| action := action ns; platform := platform ns; mapping := mapping ns;
     mapping_file := mapping_file ns; mappings_file := Some v;
     input := input ns; input_file := input_file ns; json_input := json_input ns;
     hostname := hostname ns; indexing_file := indexing_file ns;
     output_format := output_format ns |}.
Definition set_input v ns :=
  {| action := action ns; platform := platform ns; mapping := mapping ns;
     mapping_file := mapping_file ns; mappings_file := mappings_file ns;
     input := Some v; input_file := input_file ns; json_input := json_input ns;
     hostname := hostname ns; indexing_file := indexing_file ns;
     output_format := output_format ns |}.
Definition set_input_file v ns :=
  {| action := action ns; platform := platform ns; mapping := mapping ns;
     mapping_file := mapping_file ns; mappings_file := mappings_file ns;
     input := input ns; input_file := Some v; json_input := json_input ns;
     hostname := hostname ns; indexing_file := indexing_file ns;
     output_format := output_format ns |}.
Definition set_json_input ns :=
  {| action := action ns; platform := platform ns; mapping := mapping ns;
     mapping_file := mapping_file ns; mappings_file := mappings_file ns;
     input := input ns; input_file := input_file ns; json_input := true;
     hostname := hostname ns; indexing_file := indexing_file ns;
     output_format := output_format ns |}.
Definition set_hostname v ns :=
  {| action := action ns; platform := platform ns; mapping := mapping ns;
     mapping_file := mapping_file ns; mappings_file := mappings_file ns;
     input := input ns; input_file := input_file ns; json_input := json_input ns;
     hostname := Some v; indexing_file := indexing_file ns;
     output_format := output_format ns |}.
Definition set_indexing_file v ns :=
  {| action := action ns; platform := platform ns; mapping := mapping ns;
     mapping_file := mapping_file ns; mappings_file := mappings_file ns;
     input := input ns; input_file := input_file ns; json_input := json_input ns;
     hostname := hostname ns; indexing_file := Some v;
     output_format := output_format ns |}.
Definition set_output_format v ns :=
  {| action := action ns; platform := platform ns; mapping := mapping ns;
     mapping_file := mapping_file ns; mappings_file := mappings_file ns;
     input := input ns; input_file := input_file ns; json_input := json_input ns;
     hostname := hostname ns; indexing_file := indexing_file ns;
     output_format := v |}.

(** The [add_argument] calls, option string by option string. *)
Definition optionals : list (string * option_action) :=
  [ ("-p", Store (Some platform_choices) set_platform);
    ("--platform", Store (Some platform_choices) set_platform);
    ("-m", Store None set_mapping);
    ("--mapping", Store None set_mapping);
    ("-f", Store None set_mapping_file);
    ("--mapping-file", Store None set_mapping_file);
    ("--mappings-file", Store None set_mappings_file);
    ("-i", Store None set_input);
    ("--input", Store None set_input);
    ("--input-file", Store None set_input_file);
    ("--json-input", StoreTrue set_json_input);
    ("--hostname", Store None set_hostname);
    ("--indexing-file", Store None set_indexing_file);
    ("-o", Store (Some output_format_choices) set_output_format);
    ("--output-format", Store (Some output_format_choices) set_output_format) ].

Fixpoint find_option (tok : string) (table : list (string * option_action))
  : option option_action :=
  match table with
  | [] => None
  | (name, act) :: rest => if String.eqb name tok then Some act else find_option tok rest
  end.

Definition is_dashed (tok : string) : bool := prefix "-" tok.

(** Left to right over argv.  [act] is the positional consumed so far and
    [extra] records a second positional, which argparse rejects only once
    the whole argv has been read. *)
Fixpoint parse_loop (argv : list string) (act : option string) (extra : bool)
         (ns : Namespace) : parse_result :=
  match argv with
  | [] =>
      match act, extra with
      | Some a, false => Parsed (set_action a ns)
      | _, _ => UsageError
      end
  | tok :: rest =>
      if String.eqb tok "-h" || String.eqb tok "--help" then Help
      else if is_dashed tok then
        match find_option tok optionals with
        | None => Unmodelled
        | Some (StoreTrue set) => parse_loop rest act extra (set ns)
        | Some (Store choices set) =>
            match rest with
            | [] => UsageError
            | value :: rest' =>
                if is_dashed value then Unmodelled
                else
                  match choices with
                  | Some allowed =>
                      if str_in value allowed
                      then parse_loop rest' act extra (set value ns)
                      else UsageError
                  | None => parse_loop rest' act extra (set value ns)
                  end
            end
        end
      else
        match act with
        | None => parse_loop rest (Some tok) extra ns
        | Some _ => parse_loop rest act true ns
        end
  end.

Definition parse_args (argv : list string) : parse_result :=
  parse_loop argv None false defaults.

(** [str.lower] on the ASCII letters, which is all that decides whether
    the result is the key [validate]. *)
Definition lower_char (c : ascii) : ascii :=
  let n := nat_of_ascii c in
  if Nat.leb 65 n && Nat.leb n 90 then ascii_of_nat (n + 32) else c.
Fixpoint lower (s : string) : string :=
  match s with
  | EmptyString => EmptyString
  | String c rest => String (lower_char c) (lower rest)
  end.

(** USP.py 230-348; [None] for an argv outside the modelled fragment. *)
Definition main (sourceArgs : list string) : option (M unit) :=
  match parse_args sourceArgs with
  | Unmodelled => None
  | UsageError => Some (emit (EStderr (argparse_error w sourceArgs)) ;;; sys_exit 2)
  | Help => Some (emit (EStdout (argparse_help w)) ;;; sys_exit 0)
  | Parsed ns =>
      Some (if String.eqb (lower (action ns)) "validate"
            then do_validate ns
            else raise "KeyError")
  end.

End Program.

(** * Specification-level definitions *)

(** A trace is quiet when nothing in it is visible from outside the
    process: it holds file reads only. *)
Definition is_open (e : event) : bool :=
  match e with EOpen _ => true | _ => false end.

Definition quiet (t : list event) : Prop := forallb is_open t = true.

(** A computation that does nothing but print. *)
Definition is_stdout (e : event) : bool :=
  match e with EStdout _ => true | _ => false end.

Definition prints_only {A} (m : M A) : Prop := forallb is_stdout (fst m) = true.

(** The two shapes of the input of a request: a text, or a JSON array. *)
Definition one_input (text_input json_input : pyval) : Prop :=
  (exists s, text_input = PStr s /\ json_input = PNone)
  \/ (exists l, text_input = PNone /\ json_input = PList l).

(** ** The error path

    [reports P m]: the computation [m] returns after a quiet trace, or stops
    in [reportError msg] for a message with [P msg], or ends in an exception
    nobody catches; in each case it has done nothing visible before. *)
Inductive reports {A} (P : string -> Prop) : M A -> Prop :=
| reports_ret t a :
    quiet t -> reports P (t, Ret a)
| reports_exit t msg :
    quiet t -> P msg -> reports P ((t ++ [EStderr (msg ++ nl)])%list, Exit 1)
| reports_raise t exn :
    quiet t -> reports P (t, Raise exn).

(** Every message [do_validate] hands to [reportError], with the texts
    that go into it from outside: paths, the platform, exception texts. *)
Inductive error_message (ns : args.Namespace) : string -> list string -> Prop :=
| msg_file_not_found path :
    error_message ns ("File not found: " ++ path) [path]
| msg_error_reading path e :
    error_message ns ("Error reading file " ++ path ++ ": " ++ e) [path; e]
| msg_invalid_json_file path e :
    error_message ns ("Invalid JSON in file " ++ path ++ ": " ++ e) [path; e]
| msg_mapping_file e :
    error_message ns ("Error loading mapping file: " ++ e) [e]
| msg_mapping_argument e :
    error_message ns ("Invalid JSON in mapping argument: " ++ e) [e]
| msg_mapping_required :
    error_message ns (mapping_required_msg (args.platform ns)) [args.platform ns]
| msg_mappings_shape :
    error_message ns
      "--mappings-file must contain a JSON array of mapping descriptors" []
| msg_input_shape :
    error_message ns "JSON input must be an array of objects" []
| msg_input_argument e :
    error_message ns ("Invalid JSON in input argument: " ++ e) [e]
| msg_input_required :
    error_message ns "Either --input or --input-file is required" []
| msg_indexing_shape :
    error_message ns "--indexing-file must contain a JSON array of indexing rules" []
| msg_api_error e :
    error_message ns ("API error: " ++ e) [e].

Definition is_error_message (ns : args.Namespace) (msg : string) : Prop :=
  exists parts, error_message ns msg parts.

(** The file at [path] reads, decodes and parses as the JSON value [v]. *)
Definition loads_json (w : world) (path : string) (v : pyval) : Prop :=
  exists raw content,
    fs w path = Bytes raw /\ utf8_decode w raw = Ok content
    /\ json_loads w content = JsonValue v.

(** A run that ends in [reportError] before the service is called. *)
Definition stops_before_call (w : world) (ns : args.Namespace) (t : list event) : Prop :=
  do_validate w ns = (t, Exit 1)
  /\ stdout_of t = [] /\ api_calls t = []
  /\ exists msg, stderr_of t = [msg ++ nl].

(** A run that never gets to the service: no call, nothing on stdout,
    status 1; and when it ends in [sys.exit], it is a [reportError]. *)
Definition ends_before_call (w : world) (ns : args.Namespace) : Prop :=
  api_calls (fst (do_validate w ns)) = []
  /\ stdout_of (fst (do_validate w ns)) = []
  /\ exit_code (snd (do_validate w ns)) = 1%Z
  /\ forall t c, do_validate w ns = (t, Exit c) -> stops_before_call w ns t.

(** What the process leaves on stderr: the writes of the script, and after
    them the traceback of the interpreter when an exception escapes. *)
Definition process_stderr {A} (w : world) (m : M A) : list string :=
  stderr_of (fst m)
  +++ match snd m with
      | Raise exn => [traceback w exn]
      | _ => []
      end.

(** Every exception a computation lets escape satisfies [Q]. *)
Definition raises_only {A} (Q : string -> Prop) (m : M A) : Prop :=
  forall t exn, m = (t, Raise exn) -> Q exn.

(** [exn] is an exception of [json.loads], not a [JSONDecodeError], on an
    inline argument the run parses: the mapping when no mapping file is
    given, the input in JSON mode when no input file is given. *)
Definition inline_mapping_raises (w : world) (ns : args.Namespace) (exn : string) : Prop :=
  truthy_arg (args.mapping_file ns) = false
  /\ truthy_arg (args.mapping ns) = true
  /\ exists text e,
       args.mapping ns = Some text /\ json_loads w text = JsonOtherError exn e.

Definition inline_input_raises (w : world) (ns : args.Namespace) (exn : string) : Prop :=
  truthy_arg (args.input_file ns) = false
  /\ truthy_arg (args.input ns) = true
  /\ args.json_input ns = true
  /\ exists text e,
       args.input ns = Some text /\ json_loads w text = JsonOtherError exn e.


(** A step of the request phase that does not return ends the run, in its
    own way: the run has the events of the steps [before] it and of the
    step, and the step's end, [sys.exit] or the exception. *)
Definition ends_run {A} (w : world) (ns : args.Namespace)
    (before : list event) (step : M A) : Prop :=
  (forall t c, step = (t, Exit c) -> do_validate w ns = (before +++ t, Exit c))
  /\ (forall t exn, step = (t, Raise exn) -> do_validate w ns = (before +++ t, Raise exn)).

(** The number a decimal numeral stands for. *)
Definition read_nat (s : string) : option nat :=
  option_map Nat.of_uint (NilZero.uint_of_string s).

(** The text on stdout, and its lines, each with its line break. *)
Definition stdout_text (t : list event) : string :=
  fold_right append "" (stdout_of t).

Fixpoint text_lines (s : string) : list string :=
  match s with
  | EmptyString => []
  | String c rest =>
      if Ascii.eqb c (ascii_of_nat 10) then String c "" :: text_lines rest
      else match text_lines rest with
           | [] => [String c ""]
           | line :: more => String c line :: more
           end
  end.

(** [key in d]. *)
Definition has_key (d : list (string * pyval)) (key : string) : bool :=
  existsb (fun kv => String.eqb (fst kv) key) d.

(** The paths a command line names: the only files a run may read. *)
Definition named_files (ns : args.Namespace) : list (option string) :=
  [args.mapping_file ns; args.mappings_file ns; args.input_file ns; args.indexing_file ns].

(** Every event of a computation satisfies [P]. *)
Definition trace_all {A} (P : event -> Prop) (m : M A) : Prop :=
  forall e, In e (fst m) -> P e.

(** A file read is of a file the command line names. *)
Definition reads_named (ns : args.Namespace) (e : event) : Prop :=
  match e with
  | EOpen path => In (Some path) (named_files ns)
  | _ => True
  end.

(** [None], or a list: what the request may carry as mappings and as
    indexing rules. *)
Definition none_or_list (v : pyval) : bool := is_None v || is_list v.

(** [isinstance(v, dict)]. *)
Definition is_dict (v : pyval) : bool :=
  match v with PDict _ => true | _ => false end.

(** The events the summary loop can show: objects whose [routing], when it
    is truthy, is an object whose [this], when it is there, is an object,
    and whose [event], when it is there, is an object. *)
Definition summary_ok (event : pyval) : bool :=
  match event with
  | PDict d =>
      let routing := dict_get d "routing" (PDict []) in
      (negb (truthy routing)
       || match routing with
          | PDict rd => is_dict (dict_get rd "this" (PDict []))
          | _ => false
          end)
      && is_dict (dict_get d "event" event)
  | _ => false
  end.

(** The hostname the summary looks at: the entry of [routing] when it has
    one, else the entry of [routing.this], else the empty string. *)
Definition chosen_hostname (rd td : list (string * pyval)) : pyval :=
  if has_key rd "hostname" then dict_get rd "hostname" PNone
  else dict_get td "hostname" (PStr "").

(** The two attributes with [choices=] hold one of their choices. *)
Definition choices_ok (ns : args.Namespace) : Prop :=
  In (args.platform ns) platform_choices
  /\ In (args.output_format ns) output_format_choices.

(** An option whose stored value, once it has passed the test of its
    choices, leaves [choices_ok] in place. *)
Definition keeps_choices (a : option_action) : Prop :=
  match a with
  | StoreTrue set => forall ns, choices_ok ns -> choices_ok (set ns)
  | Store choices set =>
      forall v ns,
        match choices with
        | Some allowed => str_in v allowed = true
        | None => True
        end ->
        choices_ok ns -> choices_ok (set v ns)
  end.

(** The file an attribute names, if it names one: an attribute that is
    None or empty names none. *)
Definition given (o : option string) : list string :=
  match o with
  | Some path => if negb (String.eqb path "") then [path] else []
  | None => []
  end.

(** The files of a command line in the order the script turns to them. *)
Definition files_in_order (ns : args.Namespace) : list string :=
  given (args.mapping_file ns) +++ given (args.mappings_file ns)
  +++ given (args.input_file ns) +++ given (args.indexing_file ns).

(** A computation reads [files], in order: all of them when it returns
    and a first part of them when it stops early. *)
Definition step_reads {A} (m : M A) (files : list string) : Prop :=
  (forall a, snd m = Ret a -> opened (fst m) = files)
  /\ exists rest, files = opened (fst m) +++ rest.

(** The five ways a run of [do_validate] can go. *)
Inductive run_case (w : world) (ns : args.Namespace) : Prop :=
| run_stopped t msg :
    quiet t ->
    do_validate_request w ns = (t +++ [EStderr (msg ++ nl)], Exit 1) ->
    do_validate w ns = (t +++ [EStderr (msg ++ nl)], Exit 1) ->
    run_case w ns
| run_raised t exn :
    quiet t ->
    do_validate_request w ns = (t, Raise exn) ->
    do_validate w ns = (t, Raise exn) ->
    run_case w ns
| run_no_manager t req e :
    quiet t ->
    do_validate_request w ns = (t, Ret req) ->
    Manager w = Err e ->
    do_validate w ns = (t, Raise e) ->
    run_case w ns
| run_api_error t req e :
    quiet t ->
    do_validate_request w ns = (t, Ret req) ->
    Manager w = Ok tt ->
    validateUSP w req = Err e ->
    do_validate w ns =
      (t +++ [EApiCall req; EStderr (("API error: " ++ e) ++ nl)], Exit 1) ->
    run_case w ns
| run_answered t req r :
    quiet t ->
    do_validate_request w ns = (t, Ret req) ->
    Manager w = Ok tt ->
    validateUSP w req = Ok r ->
    do_validate w ns =
      (t +++ EApiCall req :: fst (do_validate_render w ns r),
       snd (do_validate_render w ns r)) ->
    run_case w ns.

(** The result of the parser with another word as the action. *)
Definition with_action (a : string) (r : parse_result) : parse_result :=
  match r with
  | Parsed ns => Parsed (set_action a ns)
  | other => other
  end.

(** The long spelling of an option string. *)
Definition long_form (tok : string) : string :=
  if String.eqb tok "-p" then "--platform"
  else if String.eqb tok "-m" then "--mapping"
  else if String.eqb tok "-f" then "--mapping-file"
  else if String.eqb tok "-i" then "--input"
  else if String.eqb tok "-o" then "--output-format"
  else tok.

(** ** Texts *)

(** [needle in hay]. *)
Fixpoint contains (needle hay : string) : bool :=
  prefix needle hay ||
  match hay with
  | EmptyString => false
  | String _ rest => contains needle rest
  end.

(** Number of line breaks in a text, which is the number of lines of a text
    that ends in one. *)
Fixpoint newlines (s : string) : nat :=
  match s with
  | EmptyString => 0
  | String c rest => (if Ascii.eqb c (ascii_of_nat 10) then 1 else 0) + newlines rest
  end.

Definition single_line (s : string) : Prop := newlines s = 0.

(** ** The summary of one event, as the specification words it *)

Definition as_dict (v : pyval) : option (list (string * pyval)) :=
  match v with PDict d => Some d | _ => None end.

(** The hostname line of an event [d]: [routing.hostname], else
    [routing.this.hostname], shown when it is not empty.  [None] when
    [routing] or [routing.this] is present and is not an object. *)
Definition hostname_lines (w : world) (d : list (string * pyval)) : option (list string) :=
  let routing := dict_get d "routing" (PDict []) in
  if truthy routing then
    match as_dict routing with
    | None => None
    | Some rd =>
        match as_dict (dict_get rd "this" (PDict [])) with
        | None => None
        | Some td =>
            let hostname := dict_get rd "hostname" (dict_get td "hostname" (PStr "")) in
            Some (if truthy hostname
                  then [("  hostname: " ++ py_str w hostname) ++ nl]
                  else [])
        end
    end
  else Some [].

(** One [key: value] line per field, the key [routing] left out. *)
Definition field_lines (w : world) (fields : list (string * pyval)) : list string :=
  map (fun kv => ("  " ++ fst kv ++ ": " ++ py_str w (snd kv)) ++ nl)
      (filter (fun kv => negb (String.eqb (fst kv) "routing")) fields).

(** Index line, hostname line, field lines of the [event] sub-object (of
    the event itself when it has no [event] key), and an empty line. *)
Definition event_lines (w : world) (i : nat) (event : pyval) : option (list string) :=
  match event with
  | PDict d =>
      match hostname_lines w d, as_dict (dict_get d "event" event) with
      | Some host, Some fields =>
          Some ([("Event " ++ str_of_nat i ++ ":") ++ nl]
                +++ host +++ field_lines w fields +++ [nl])
      | _, _ => None
      end
  | _ => None
  end.

Fixpoint events_lines (w : world) (i : nat) (events : list pyval) : option (list string) :=
  match events with
  | [] => Some []
  | event :: rest =>
      match event_lines w i event, events_lines w (S i) rest with
      | Some ls, Some ls' => Some (ls +++ ls')
      | _, _ => None
      end
  end.

(** ** A concrete world

    A small file system, parsers that know the contents of its files, and a
    service whose answer is the parameter [answer]. *)
Module Demo.

Definition files (path : string) : file_result :=
  if String.eqb path "obj.json" then Bytes "{}"
  else if String.eqb path "arr.json" then Bytes "[]"
  else if String.eqb path "sample.log" then Bytes "Jan 1 host msg"
  else if String.eqb path "map.yaml" then Bytes "parsing_re: .*"
  else NoSuchFile "[Errno 2] No such file or directory".

(** Three thousand opening brackets: more nesting than the JSON scanner can
    recurse into. *)
Definition nested : string := String.concat "" (repeat "[" 3000).

Definition loads (text : string) : json_result :=
  if String.eqb text "{}" then JsonValue (PDict [])
  else if String.eqb text "[]" then JsonValue (PList [])
  else if String.eqb text "null" then JsonValue PNone
  else if String.eqb text nested then
    JsonOtherError "RecursionError"
      "maximum recursion depth exceeded while decoding a JSON array from a unicode string"
  else JsonDecodeError "Expecting value: line 1 column 1 (char 0)".

Definition yaml_load (content : string) : result pyval :=
  if String.eqb content "parsing_re: .*" then Ok (PDict [("parsing_re", PStr ".*")])
  else if String.eqb content "{}" then Ok (PDict [])
  else if String.eqb content "[]" then Ok (PList [])
  else if String.eqb content "null" then Ok PNone
  else Err "could not determine a constructor".

Definition quote (s : string) : string := "'" ++ s ++ "'".

Definition world_of (answer : result response) : world :=
  {| fs := files;
     utf8_decode := fun raw => Ok raw;
     json_loads := loads;
     yaml_safe_load := yaml_load;
     json_dumps := fun v => "<json>";
     yaml_safe_dump := fun v => "<yaml>";
     str_repr := quote;
     Manager := Ok tt;
     validateUSP := fun _ => answer;
     argparse_error := fun _ => "usage: limacharlie usp";
     argparse_help := "usage: limacharlie usp";
     traceback := fun exn => "Traceback (most recent call last): " ++ exn |}.

(** [validate -p <platform> -i <text> -o <fmt>]. *)
Definition inline (platform text fmt : string) : args.Namespace :=
  {| args.action := "validate";
     args.platform := platform;
     args.mapping := None;
     args.mapping_file := None;
     args.mappings_file := None;
     args.input := Some text;
     args.input_file := None;
     args.json_input := false;
     args.hostname := None;
     args.indexing_file := None;
     args.output_format := fmt |}.

(** [validate], no flag at all. *)
Definition bare : args.Namespace := set_action "validate" defaults.

(** [validate -p cef --indexing-file obj.json]. *)
Definition indexing_only : args.Namespace :=
  set_indexing_file "obj.json" (set_platform "cef" bare).

(** [validate -f map.yaml -m <m> --input-file sample.log -i <i>]. *)
Definition both (m i : string) : args.Namespace :=
  set_input i (set_input_file "sample.log"
    (set_mapping m (set_mapping_file "map.yaml" bare))).

(** The same world, with no credentials to build a Manager from. *)
Definition no_manager (answer : result response) : world :=
  {| fs := files;
     utf8_decode := fun raw => Ok raw;
     json_loads := loads;
     yaml_safe_load := yaml_load;
     json_dumps := fun v => "<json>";
     yaml_safe_dump := fun v => "<yaml>";
     str_repr := quote;
     Manager := Err "No organization ID specified";
     validateUSP := fun _ => answer;
     argparse_error := fun _ => "usage: limacharlie usp";
     argparse_help := "usage: limacharlie usp";
     traceback := fun exn => "Traceback (most recent call last): " ++ exn |}.

Definition answer (errs res : list pyval) : result response :=
  Ok {| resp_errors := Some errs; resp_results := Some res |}.

(** [{event: {a: 1, b: 2}, routing: {hostname: 'h'}}]. *)
Definition event_ab : pyval :=
  PDict [("event", PDict [("a", PInt 1); ("b", PInt 2)]);
         ("routing", PDict [("hostname", PStr "h")])].

(** An event as the platform stores it: [routing.this] is the identifier
    of the event, a string. *)
Definition event_atom : pyval :=
  PDict [("event", PDict [("a", PInt 1)]);
         ("routing", PDict [("hostname", PStr "h"); ("this", PStr "9f3c")])].

End Demo.

Create HintDb usp.

(** * Lemmas *)

(** ** Traces *)

Lemma stdout_of_app t t' : stdout_of (t ++ t') = (stdout_of t ++ stdout_of t')%list.
Proof. apply flat_map_app. Qed.

Lemma stderr_of_app t t' : stderr_of (t ++ t') = (stderr_of t ++ stderr_of t')%list.
Proof. apply flat_map_app. Qed.

Lemma api_calls_app t t' : api_calls (t ++ t') = (api_calls t ++ api_calls t')%list.
Proof. apply flat_map_app. Qed.

Lemma stdout_of_prints (l : list string) : stdout_of (map EStdout l) = l.
Proof. induction l as [|s l IH]; simpl; [reflexivity | now rewrite IH]. Qed.

Lemma stderr_of_prints (l : list string) : stderr_of (map EStdout l) = [].
Proof. induction l as [|s l IH]; simpl; auto. Qed.

Lemma api_calls_prints (l : list string) : api_calls (map EStdout l) = [].
Proof. induction l as [|s l IH]; simpl; auto. Qed.

Lemma quiet_nil : quiet [].
Proof. reflexivity. Qed.

Lemma quiet_app t t' : quiet t -> quiet t' -> quiet (t ++ t').
Proof. unfold quiet. intros H H'. now rewrite forallb_app, H, H'. Qed.

Lemma quiet_silent t : quiet t -> stdout_of t = [] /\ stderr_of t = [] /\ api_calls t = [].
Proof.
  unfold quiet. induction t as [|e t IH]; simpl; [auto|].
  destruct e; simpl; try discriminate. exact IH.
Qed.

#[local] Hint Resolve quiet_nil quiet_app : usp.

(** ** Loops that only print *)

Lemma for_each_print {A} (f : A -> string) (xs : list A) :
  for_each xs (fun x => print (f x)) = (map (fun x => EStdout (f x ++ nl)) xs, Ret tt).
Proof.
  induction xs as [|x xs IH]; simpl; [reflexivity|].
  rewrite IH. reflexivity.
Qed.

Lemma for_each_print_id (xs : list string) :
  for_each xs print = (map (fun x => EStdout (x ++ nl)) xs, Ret tt).
Proof. exact (for_each_print (fun x => x) xs). Qed.

Lemma truthy_PList (l : list pyval) : truthy (PList l) = negb (Nat.eqb (length l) 0).
Proof. destruct l; reflexivity. Qed.

(** The run from the moment the request is assembled and the service has
    answered. *)
Lemma do_validate_answered w ns t req r :
  do_validate_request w ns = (t, Ret req) ->
  Manager w = Ok tt ->
  validateUSP w req = Ok r ->
  do_validate w ns =
    (let (t', o) := do_validate_render w ns r in ((t ++ EApiCall req :: t')%list, o)).
Proof.
  intros Hreq HM Hv. unfold do_validate, do_validate_call.
  rewrite Hreq, HM. simpl. rewrite Hv. simpl.
  destruct (do_validate_render w ns r) as [t' o]. reflexivity.
Qed.

Lemma reports_pure {A} P (a : A) : reports P (ret a).
Proof. apply reports_ret, quiet_nil. Qed.

Lemma reports_reportError {A} P msg : P msg -> reports P (@reportError A msg).
Proof. intros H. exact (reports_exit P [] msg quiet_nil H). Qed.

Lemma reports_raised {A} P exn : reports P (@raise A exn).
Proof. apply reports_raise, quiet_nil. Qed.

Lemma reports_open P path : reports P (emit (EOpen path)).
Proof. apply reports_ret. reflexivity. Qed.

Lemma reports_bind {A B} P (m : M A) (k : A -> M B) :
  reports P m -> (forall a, reports P (k a)) -> reports P (bind m k).
Proof.
  intros Hm Hk. destruct Hm as [t a Ht | t msg Ht Hmsg | t exn Ht].
  - simpl. destruct (Hk a) as [t' b Ht' | t' msg Ht' Hmsg | t' exn Ht'].
    + apply reports_ret. now apply quiet_app.
    + rewrite app_assoc. apply reports_exit; [now apply quiet_app | assumption].
    + apply reports_raise. now apply quiet_app.
  - simpl. now apply reports_exit.
  - simpl. now apply reports_raise.
Qed.

Lemma is_error_message_intro ns msg parts :
  error_message ns msg parts -> is_error_message ns msg.
Proof. intros H. now exists parts. Qed.

#[local] Hint Constructors error_message : usp.
#[local] Hint Resolve reports_pure reports_reportError reports_raised reports_open
  is_error_message_intro : usp.

Section ErrorPath.

Variable w : world.
Variable ns : args.Namespace.

Lemma reports_load_file_content path as_json :
  reports (is_error_message ns) (_load_file_content w path as_json).
Proof.
  unfold _load_file_content.
  destruct (fs w path) as [e|e|raw]; [eauto with usp | eauto with usp |].
  apply reports_bind; [auto with usp|]. intros _.
  destruct (utf8_decode w raw) as [content|e]; [|eauto with usp].
  destruct as_json; [|auto with usp].
  destruct (json_loads w content) as [v|e|exn e]; eauto with usp.
Qed.

Lemma reports_load_mapping : reports (is_error_message ns) (_load_mapping w ns).
Proof.
  unfold _load_mapping.
  destruct (truthy_arg (args.mapping_file ns)).
  - destruct (args.mapping_file ns) as [path|]; [|auto with usp].
    destruct (fs w path) as [e|e|content]; [eauto with usp | eauto with usp |].
    apply reports_bind; [auto with usp|]. intros _.
    destruct (yaml_safe_load w content) as [v|e]; eauto with usp.
  - destruct (truthy_arg (args.mapping ns)); [|auto with usp].
    destruct (args.mapping ns) as [text|]; [|auto with usp].
    destruct (json_loads w text) as [v|e|exn e]; eauto with usp.
Qed.

Lemma reports_mapping : reports (is_error_message ns) (do_validate_mapping w ns).
Proof.
  unfold do_validate_mapping.
  apply reports_bind; [apply reports_load_mapping|]. intros mapping.
  apply reports_bind; [|auto with usp].
  destruct (is_None mapping && _); [|auto with usp].
  destruct (negb _); eauto with usp.
Qed.

Lemma reports_checked path msg parts :
  error_message ns msg parts ->
  reports (is_error_message ns)
    (v <- _load_file_content w path true ;;
     if negb (is_list v) then reportError msg else ret v).
Proof.
  intros Hmsg. apply reports_bind; [apply reports_load_file_content|].
  intros v. destruct (negb _); eauto with usp.
Qed.

Lemma reports_mappings : reports (is_error_message ns) (do_validate_mappings w ns).
Proof.
  unfold do_validate_mappings.
  destruct (truthy_arg _); [|auto with usp].
  destruct (args.mappings_file ns) as [path|]; [|auto with usp].
  eapply reports_checked. constructor.
Qed.

Lemma reports_input : reports (is_error_message ns) (do_validate_input w ns).
Proof.
  unfold do_validate_input.
  apply reports_bind.
  - destruct (truthy_arg (args.input_file ns)).
    + destruct (args.input_file ns) as [path|]; [|auto with usp].
      destruct (args.json_input ns).
      * apply reports_bind; [apply reports_load_file_content|].
        intros v. destruct (negb _); eauto with usp.
      * apply reports_bind; [apply reports_load_file_content|].
        intros v. auto with usp.
    + destruct (truthy_arg (args.input ns)); [|auto with usp].
      destruct (args.input ns) as [text|]; [|auto with usp].
      destruct (args.json_input ns); [|auto with usp].
      destruct (json_loads w text) as [v|e|exn e]; [|eauto with usp|eauto with usp].
      destruct (negb _); eauto with usp.
  - intros [text_input json_input].
    destruct (is_None text_input && is_None json_input); eauto with usp.
Qed.

Lemma reports_indexing : reports (is_error_message ns) (do_validate_indexing w ns).
Proof.
  unfold do_validate_indexing.
  destruct (truthy_arg _); [|auto with usp].
  destruct (args.indexing_file ns) as [path|]; [|auto with usp].
  eapply reports_checked. constructor.
Qed.

Lemma reports_request : reports (is_error_message ns) (do_validate_request w ns).
Proof.
  unfold do_validate_request.
  apply reports_bind; [apply reports_mapping|]. intros mapping.
  apply reports_bind; [apply reports_mappings|]. intros mappings.
  apply reports_bind; [apply reports_input|]. intros inputs.
  apply reports_bind; [apply reports_indexing|]. intros indexing.
  auto with usp.
Qed.

End ErrorPath.

(** Nothing is printed, reported or sent while the request is assembled. *)
Lemma request_quiet w ns t req :
  do_validate_request w ns = (t, Ret req) -> quiet t.
Proof.
  intros H. pose proof (reports_request w ns) as R.
  rewrite H in R. inversion R; assumption.
Qed.

(** ** The three states of the response *)

Lemma render_hard_failure w ns r :
  get_list (resp_errors r) <> [] ->
  do_validate_render w ns r =
    (map EStdout
       (["VALIDATION FAILED" ++ nl ++ nl; "Errors:" ++ nl]
        +++ map (fun err => ("  - " ++ py_str w err) ++ nl) (get_list (resp_errors r))
        +++ [nl]
        +++ (if Nat.eqb (length (get_list (resp_results r))) 0 then []
             else [("Partially parsed " ++ str_of_nat (length (get_list (resp_results r)))
                    ++ " event(s) before failure.") ++ nl])),
     Exit 1).
Proof.
  intros Herr. unfold do_validate_render.
  rewrite !truthy_PList.
  destruct (get_list (resp_errors r)) as [|e errs] eqn:He; [congruence|].
  cbn [length Nat.eqb negb].
  rewrite for_each_print.
  destruct (Nat.eqb (length (get_list (resp_results r))) 0); cbn [negb].
  - cbn. rewrite !map_app, map_map. reflexivity.
  - cbn. rewrite !map_app, map_map. reflexivity.
Qed.

Lemma render_empty_result w ns r :
  get_list (resp_errors r) = [] ->
  get_list (resp_results r) = [] ->
  do_validate_render w ns r =
    (map EStdout (map (fun s => s ++ nl) empty_result_text), Exit 1).
Proof.
  intros He Hr. unfold do_validate_render. rewrite He, Hr. cbn [truthy length Nat.eqb].
  rewrite for_each_print_id. rewrite map_map. reflexivity.
Qed.

(** What a run shows once the service has answered [r]: the request phase
    contributes nothing to either stream. *)
Lemma answered_streams w ns t req r printed o :
  do_validate_request w ns = (t, Ret req) ->
  Manager w = Ok tt ->
  validateUSP w req = Ok r ->
  do_validate_render w ns r = (map EStdout printed, o) ->
  do_validate w ns = (t +++ EApiCall req :: map EStdout printed, o)
  /\ stdout_of (fst (do_validate w ns)) = printed
  /\ stderr_of (fst (do_validate w ns)) = []
  /\ api_calls (fst (do_validate w ns)) = [req].
Proof.
  intros Hreq HM Hv Hrender.
  rewrite (do_validate_answered w ns t req r Hreq HM Hv), Hrender.
  destruct (quiet_silent t (request_quiet w ns t req Hreq)) as (Hout & Herr & Hapi).
  cbn [fst].
  rewrite stdout_of_app, stderr_of_app, api_calls_app, Hout, Herr, Hapi.
  cbn. rewrite stdout_of_prints, stderr_of_prints, api_calls_prints. auto.
Qed.

(** The numeral [str] gives for a count reads back as that count. *)
Lemma read_nat_str_of_nat n : read_nat (str_of_nat n) = Some n.
Proof.
  unfold read_nat, str_of_nat.
  assert (Hnil : Nat.to_uint n <> Decimal.Nil).
  { rewrite <- (Unsigned.of_to n) at 1. rewrite Unsigned.to_of.
    unfold Decimal.unorm. destruct (Decimal.nzhead (Nat.to_uint n)); discriminate. }
  rewrite (NilZero.usu _ Hnil). cbn [option_map]. now rewrite Unsigned.of_to.
Qed.

(** C3: a response with a non-empty errors list.  The run prints
    VALIDATION FAILED, the heading [Errors:], one line [  - err] for every
    entry of errors in order, an empty line, and the line
    [Partially parsed N event(s) before failure.] exactly when results is
    non-empty, where N is the decimal numeral of the number of results;
    nothing goes to stderr and the process exits with status 1, whatever
    results holds. *)
Theorem C3_hard_failure w ns t req r :
  do_validate_request w ns = (t, Ret req) ->
  Manager w = Ok tt ->
  validateUSP w req = Ok r ->
  get_list (resp_errors r) <> [] ->
  let errors := get_list (resp_errors r) in
  let results := get_list (resp_results r) in
  let printed :=
    ["VALIDATION FAILED" ++ nl ++ nl; "Errors:" ++ nl]
    +++ map (fun err => ("  - " ++ py_str w err) ++ nl) errors
    +++ [nl]
    +++ (if Nat.eqb (length results) 0 then []
         else [("Partially parsed " ++ str_of_nat (length results)
                ++ " event(s) before failure.") ++ nl]) in
  do_validate w ns = (t +++ EApiCall req :: map EStdout printed, Exit 1)
  /\ stdout_of (fst (do_validate w ns)) = printed
  /\ stderr_of (fst (do_validate w ns)) = []
  /\ exit_code (snd (do_validate w ns)) = 1%Z
  /\ read_nat (str_of_nat (length results)) = Some (length results).
Proof.
  intros Hreq HM Hv Herr errors results printed.
  destruct (answered_streams w ns t req r printed (Exit 1) Hreq HM Hv
              (render_hard_failure w ns r Herr)) as (Hrun & Hout & Herr' & _).
  split; [assumption|]. split; [assumption|]. split; [assumption|].
  split; [rewrite Hrun; reflexivity | apply read_nat_str_of_nat].
Qed.

(** C2: a response whose errors and results are both empty.  The run prints
    VALIDATION FAILED, the warning that no events were parsed, the three
    usual causes (regex, platform, empty sample) and the three suggestions,
    and the process exits with status 1. *)
Theorem C2_empty_result w ns t req r :
  do_validate_request w ns = (t, Ret req) ->
  Manager w = Ok tt ->
  validateUSP w req = Ok r ->
  get_list (resp_errors r) = [] ->
  get_list (resp_results r) = [] ->
  let printed :=
    map (fun s => s ++ nl)
      [ "VALIDATION FAILED" ++ nl;
        "WARNING: No events were parsed from the sample data." ++ nl;
        "This usually indicates one of the following issues:";
        "  - The parsing_re regex does not match the input format";
        "  - The platform type does not match the data format";
        "  - The sample data is empty or contains only whitespace";
        "";
        "Suggestions:";
        "  - Verify your parsing_re regex matches the sample data";
        "  - Check that the platform matches your data format (text, json, cef, etc.)";
        "  - Ensure the sample file contains valid log data" ] in
  do_validate w ns = (t +++ EApiCall req :: map EStdout printed, Exit 1)
  /\ stdout_of (fst (do_validate w ns)) = printed
  /\ stderr_of (fst (do_validate w ns)) = []
  /\ exit_code (snd (do_validate w ns)) = 1%Z.
Proof.
  intros Hreq HM Hv He Hr printed.
  destruct (answered_streams w ns t req r printed (Exit 1) Hreq HM Hv
              (render_empty_result w ns r He Hr)) as (Hrun & Hout & Herr' & _).
  repeat split; try assumption. rewrite Hrun. reflexivity.
Qed.

Lemma for_each_print_fields w (fields : list (string * pyval)) :
  for_each fields (show_field w) = (map EStdout (field_lines w fields), Ret tt).
Proof.
  unfold field_lines.
  induction fields as [|[key value] fields IH]; [reflexivity|].
  cbn [for_each filter fst]. rewrite IH. unfold show_field.
  destruct (negb (String.eqb key "routing")); reflexivity.
Qed.

Lemma show_event_shaped w i event ls :
  event_lines w i event = Some ls ->
  show_event w i event = (map EStdout ls, Ret tt).
Proof.
  unfold event_lines, show_event, hostname_lines.
  destruct event as [| | | | |l|d]; try discriminate.
  unfold print, emit. cbn [bind py_get ret].
  destruct (truthy (dict_get d "routing" (PDict []))) eqn:Hr.
  - destruct (dict_get d "routing" (PDict [])) as [| | | | |l|rd]; try discriminate.
    cbn [as_dict py_get bind ret].
    destruct (dict_get rd "this" (PDict [])) as [| | | | |l|td]; try discriminate.
    cbn [as_dict py_get bind ret].
    destruct (dict_get d "event" (PDict d)) as [| | | | |l|fields]; try discriminate.
    cbn [as_dict py_items bind ret]. intros H. injection H as <-.
    rewrite for_each_print_fields.
    destruct (truthy (dict_get rd "hostname" (dict_get td "hostname" (PStr "")))).
    + cbn. rewrite !map_app. reflexivity.
    + cbn. rewrite !map_app. reflexivity.
  - destruct (dict_get d "event" (PDict d)) as [| | | | |l|fields]; try discriminate.
    cbn [as_dict py_items bind ret]. intros H. injection H as <-.
    rewrite for_each_print_fields.
    cbn. rewrite !map_app. reflexivity.
Qed.

Lemma show_event_misshaped w i event :
  event_lines w i event = None ->
  exists t, show_event w i event = (t, Raise "AttributeError").
Proof.
  unfold event_lines, show_event, hostname_lines.
  destruct event as [| | | | |l|d]; try (intros _; eexists; reflexivity).
  unfold print, emit. cbn [bind py_get ret].
  destruct (truthy (dict_get d "routing" (PDict []))) eqn:Hr.
  - destruct (dict_get d "routing" (PDict [])) as [| | | | |l|rd];
      try (intros _; eexists; reflexivity).
    cbn [as_dict py_get bind ret].
    destruct (dict_get rd "this" (PDict [])) as [| | | | |l|td];
      try (intros _; eexists; reflexivity).
    cbn [as_dict py_get bind ret].
    destruct (truthy (dict_get rd "hostname" (dict_get td "hostname" (PStr ""))));
      (destruct (dict_get d "event" (PDict d)) as [| | | | |l|fields];
       try discriminate; intros _; eexists; reflexivity).
  - destruct (dict_get d "event" (PDict d)) as [| | | | |l|fields];
      try discriminate; intros _; eexists; reflexivity.
Qed.

Lemma show_events_shaped w events : forall i ls,
  events_lines w i events = Some ls ->
  show_events w i events = (map EStdout ls, Ret tt).
Proof.
  induction events as [|event rest IH]; intros i ls; cbn [events_lines show_events].
  - intros H. injection H as <-. reflexivity.
  - destruct (event_lines w i event) as [l1|] eqn:H1; [|discriminate].
    destruct (events_lines w (S i) rest) as [l2|] eqn:H2; [|discriminate].
    intros H. injection H as <-.
    rewrite (show_event_shaped w i event l1 H1), (IH (S i) l2 H2).
    cbn. rewrite map_app. reflexivity.
Qed.

(** The Success state, up to the point where the results are rendered. *)
Lemma render_success w ns r results :
  get_list (resp_errors r) = [] ->
  get_list (resp_results r) = results ->
  results <> [] ->
  do_validate_render w ns r =
    (let (t, o) :=
       if String.eqb (args.output_format ns) "json" then
         print (json_dumps w (PList results))
       else if String.eqb (args.output_format ns) "yaml" then
         print (yaml_safe_dump w (PList results))
       else show_events w 1 results in
     (EStdout ("VALIDATION SUCCESSFUL" ++ nl ++ nl)
      :: EStdout (("Parsed " ++ str_of_nat (length results) ++ " event(s):" ++ nl) ++ nl)
      :: t, o)).
Proof.
  intros He Hres Hr. unfold do_validate_render. rewrite He, Hres.
  destruct results as [|e rest]; [congruence|].
  cbn [truthy length Nat.eqb]. unfold print at 1 2. unfold emit. cbn [bind].
  destruct (if String.eqb (args.output_format ns) "json" then _ else _) as [t o].
  reflexivity.
Qed.

(** Success in the three output modes, for events the summary can show. *)
Lemma success_rendered w ns t req r body :
  do_validate_request w ns = (t, Ret req) ->
  Manager w = Ok tt ->
  validateUSP w req = Ok r ->
  get_list (resp_errors r) = [] ->
  get_list (resp_results r) <> [] ->
  let results := get_list (resp_results r) in
  (if String.eqb (args.output_format ns) "json" then
     Some [json_dumps w (PList results) ++ nl]
   else if String.eqb (args.output_format ns) "yaml" then
     Some [yaml_safe_dump w (PList results) ++ nl]
   else events_lines w 1 results) = Some body ->
  let printed :=
    ["VALIDATION SUCCESSFUL" ++ nl ++ nl;
     ("Parsed " ++ str_of_nat (length results) ++ " event(s):" ++ nl) ++ nl] +++ body in
  do_validate w ns = (t +++ EApiCall req :: map EStdout printed, Ret tt)
  /\ stdout_of (fst (do_validate w ns)) = printed
  /\ stderr_of (fst (do_validate w ns)) = []
  /\ exit_code (snd (do_validate w ns)) = 0%Z.
Proof.
  intros Hreq HM Hv He Hr results Hbody printed.
  assert (Hrender : do_validate_render w ns r = (map EStdout printed, Ret tt)).
  { rewrite (render_success w ns r results He eq_refl Hr). subst printed.
    destruct (String.eqb (args.output_format ns) "json").
    - injection Hbody as <-. reflexivity.
    - destruct (String.eqb (args.output_format ns) "yaml").
      + injection Hbody as <-. reflexivity.
      + rewrite (show_events_shaped w results 1 body Hbody). reflexivity. }
  destruct (answered_streams w ns t req r printed (Ret tt) Hreq HM Hv Hrender)
    as (Hrun & Hout & Herr' & _).
  repeat split; try assumption. rewrite Hrun. reflexivity.
Qed.

(** C1, at a response with no errors and one parsed event whose
    [routing.this] is a string (the identifier of the event), shown in
    summary mode: the run prints VALIDATION SUCCESSFUL, the count line and
    [Event 1:], then ends in an uncaught AttributeError, so the process
    status is 1 and not 0. *)
Theorem C1_success_raises_on_routing_this :
  let w := Demo.world_of (Demo.answer [] [Demo.event_atom]) in
  let ns := Demo.inline "cef" "x" "summary" in
  exists req r,
    do_validate_request w ns = ([], Ret req)
    /\ validateUSP w req = Ok r
    /\ get_list (resp_errors r) = []
    /\ get_list (resp_results r) = [Demo.event_atom]
    /\ do_validate w ns =
         ([EApiCall req;
           EStdout ("VALIDATION SUCCESSFUL" ++ nl ++ nl);
           EStdout ("Parsed 1 event(s):" ++ nl ++ nl);
           EStdout ("Event 1:" ++ nl)],
          Raise "AttributeError")
    /\ exit_code (snd (do_validate w ns)) = 1%Z.
Proof.
  do 2 eexists. repeat split; reflexivity.
Qed.

(** C4, the cause: in the summary of an event whose [routing] object has a
    [this] entry that is not itself an object, the lookup of the fallback
    hostname raises AttributeError before any hostname or field line is
    printed, also when [routing.hostname] is there.  Only the index line
    has been printed. *)
Theorem C4_summary_raises_on_routing_this w i d rd this :
  dict_get d "routing" (PDict []) = PDict rd ->
  rd <> [] ->
  dict_get rd "this" (PDict []) = this ->
  as_dict this = None ->
  show_event w i (PDict d) =
    ([EStdout (("Event " ++ str_of_nat i ++ ":") ++ nl)], Raise "AttributeError").
Proof.
  intros Hrouting Hrd Hthis Hshape.
  unfold show_event, print, emit. cbn [bind py_get ret].
  rewrite Hrouting. destruct rd as [|kv rd']; [congruence|].
  cbn [truthy py_get bind ret]. rewrite Hthis.
  destruct this; try discriminate; reflexivity.
Qed.

Lemma C4_summary_raises_on_routing_this_witness :
  show_event (Demo.world_of (Demo.answer [] [Demo.event_atom])) 1 Demo.event_atom =
    ([EStdout ("Event 1:" ++ nl)], Raise "AttributeError").
Proof.
  apply (C4_summary_raises_on_routing_this _ 1 _
           [("hostname", PStr "h"); ("this", PStr "9f3c")] (PStr "9f3c"));
    [reflexivity | discriminate | reflexivity | reflexivity].
Defined.

(** The event of the specification,
    [{event: {a: 1, b: 2}, routing: {hostname: 'h'}}]: index, hostname [h],
    a line for [a] and one for [b], and no line for [routing]. *)
Lemma summary_event_ab w :
  show_event w 1 Demo.event_ab =
    (map EStdout ["Event 1:" ++ nl; "  hostname: h" ++ nl;
                  "  a: 1" ++ nl; "  b: 2" ++ nl; nl], Ret tt).
Proof. reflexivity. Qed.

(** ** Runs that stop before the call *)

Lemma request_failed w ns t c :
  do_validate_request w ns = (t, Exit c) -> do_validate w ns = (t, Exit c).
Proof. intros H. unfold do_validate. rewrite H. reflexivity. Qed.

Lemma reported_streams t msg :
  quiet t ->
  stdout_of (t +++ [EStderr (msg ++ nl)]) = []
  /\ stderr_of (t +++ [EStderr (msg ++ nl)]) = [msg ++ nl]
  /\ api_calls (t +++ [EStderr (msg ++ nl)]) = [].
Proof.
  intros Ht. destruct (quiet_silent t Ht) as (Hout & Herr & Hapi).
  rewrite stdout_of_app, stderr_of_app, api_calls_app, Hout, Herr, Hapi. auto.
Qed.

Lemma load_mapping_absent w ns :
  truthy_arg (args.mapping ns) = false ->
  truthy_arg (args.mapping_file ns) = false ->
  _load_mapping w ns = ([], Ret PNone).
Proof. intros Hm Hf. unfold _load_mapping. rewrite Hm, Hf. reflexivity. Qed.

Lemma mapping_step_absent w ns :
  truthy_arg (args.mapping ns) = false ->
  truthy_arg (args.mapping_file ns) = false ->
  args.mappings_file ns = None ->
  do_validate_mapping w ns =
    (if str_in (args.platform ns) builtin_parser_platforms
     then ([], Ret PNone)
     else reportError (mapping_required_msg (args.platform ns))).
Proof.
  intros Hm Hf Hms.
  unfold do_validate_mapping. rewrite (load_mapping_absent w ns Hm Hf), Hms.
  cbn [bind ret is_None andb].
  destruct (str_in (args.platform ns) builtin_parser_platforms); reflexivity.
Qed.

Lemma mapping_required_stops w ns :
  truthy_arg (args.mapping ns) = false ->
  truthy_arg (args.mapping_file ns) = false ->
  args.mappings_file ns = None ->
  str_in (args.platform ns) builtin_parser_platforms = false ->
  do_validate w ns = ([EStderr (mapping_required_msg (args.platform ns) ++ nl)], Exit 1).
Proof.
  intros Hm Hf Hms Hout. apply request_failed. unfold do_validate_request.
  rewrite (mapping_step_absent w ns Hm Hf Hms), Hout. reflexivity.
Qed.

(** C5: no mapping, no mapping file and no mappings file.  On a platform of
    the built-in-parser list (cef is one) the mapping requirement is not
    raised: the mapping step returns None without a word.  On any other
    platform (text is one) the run is over after one write to stderr, the
    message that names the platform and lists the built-in-parser
    platforms; the status is 1 and the service is never called. *)
Theorem C5_mapping_requirement w ns :
  truthy_arg (args.mapping ns) = false ->
  truthy_arg (args.mapping_file ns) = false ->
  args.mappings_file ns = None ->
  (str_in (args.platform ns) builtin_parser_platforms = true ->
   do_validate_mapping w ns = ([], Ret PNone))
  /\ (str_in (args.platform ns) builtin_parser_platforms = false ->
      do_validate w ns =
        ([EStderr
            (("Platform " ++ dquote ++ args.platform ns ++ dquote
              ++ " requires a mapping configuration." ++ nl
              ++ "Use --mapping, --mapping-file, or --mappings-file to provide one." ++ nl
              ++ "Platforms with built-in parsers (no mapping required): "
              ++ "cef, wel, gcp, aws, 1password, duo, slack") ++ nl)],
         Exit 1)
      /\ api_calls (fst (do_validate w ns)) = []
      /\ exit_code (snd (do_validate w ns)) = 1%Z)
  /\ str_in "cef" builtin_parser_platforms = true
  /\ str_in "text" builtin_parser_platforms = false.
Proof.
  intros Hm Hf Hms. split; [|split; [|split; reflexivity]].
  - intros Hin. rewrite (mapping_step_absent w ns Hm Hf Hms), Hin. reflexivity.
  - intros Hout. rewrite (mapping_required_stops w ns Hm Hf Hms Hout).
    repeat split; reflexivity.
Qed.

Lemma C5_mapping_requirement_witness :
  do_validate_mapping (Demo.world_of (Demo.answer [] []))
    (Demo.inline "cef" "test data" "summary") = ([], Ret PNone)
  /\ exit_code (snd (do_validate (Demo.world_of (Demo.answer [] []))
                       (Demo.inline "text" "test data" "summary"))) = 1%Z.
Proof.
  split.
  - apply (C5_mapping_requirement (Demo.world_of (Demo.answer [] []))
             (Demo.inline "cef" "test data" "summary")); reflexivity.
  - apply (C5_mapping_requirement (Demo.world_of (Demo.answer [] []))
             (Demo.inline "text" "test data" "summary")); reflexivity.
Defined.

(** ** The platforms of the command line *)

Lemma str_in_In x xs : str_in x xs = true <-> In x xs.
Proof.
  unfold str_in. rewrite existsb_exists. split.
  - intros (y & Hy & Heq). apply String.eqb_eq in Heq. now subst.
  - intros Hx. exists x. split; [assumption | apply String.eqb_refl].
Qed.

Lemma parse_platform p :
  is_dashed p = false ->
  parse_args ["validate"; "--platform"; p] =
    if str_in p platform_choices
    then Parsed (set_action "validate" (set_platform p defaults))
    else UsageError.
Proof.
  intros Hp. unfold parse_args. cbn. rewrite Hp.
  destruct (str_in p platform_choices) eqn:Hin.
  - unfold str_in in Hin. cbn in Hin. rewrite Hin. reflexivity.
  - unfold str_in in Hin. cbn in Hin. rewrite Hin. reflexivity.
Qed.

(** C10: the parser accepts exactly text, json, cef, gcp and aws for
    [--platform]; of these cef, gcp and aws are on the built-in-parser
    list and text and json are not, so a run on json (or text) without a
    mapping source stops before the call with the mapping-required message;
    and the list shown in that message names wel, 1password, duo and slack,
    none of which the parser accepts. *)
Theorem C10_platform_sets :
  platform_choices = ["text"; "json"; "cef"; "gcp"; "aws"]
  /\ builtin_parser_platforms = ["cef"; "wel"; "gcp"; "aws"; "1password"; "duo"; "slack"]
  /\ (forall p, is_dashed p = false ->
        (exists ns, parse_args ["validate"; "--platform"; p] = Parsed ns)
        <-> In p platform_choices)
  /\ filter (fun p => str_in p builtin_parser_platforms) platform_choices
     = ["cef"; "gcp"; "aws"]
  /\ filter (fun p => negb (str_in p builtin_parser_platforms)) platform_choices
     = ["text"; "json"]
  /\ (forall w ns,
        In (args.platform ns) ["text"; "json"] ->
        truthy_arg (args.mapping ns) = false ->
        truthy_arg (args.mapping_file ns) = false ->
        args.mappings_file ns = None ->
        do_validate w ns =
          ([EStderr (mapping_required_msg (args.platform ns) ++ nl)], Exit 1))
  /\ filter (fun p => negb (str_in p platform_choices)) builtin_parser_platforms
     = ["wel"; "1password"; "duo"; "slack"]
  /\ (forall p, In p ["wel"; "1password"; "duo"; "slack"] ->
        contains p (mapping_required_msg "text") = true
        /\ parse_args ["validate"; "--platform"; p] = UsageError).
Proof.
  split; [reflexivity|]. split; [reflexivity|]. split.
  { intros p Hp. rewrite (parse_platform p Hp), <- str_in_In.
    destruct (str_in p platform_choices); split; intros H; try reflexivity.
    - eexists; reflexivity.
    - destruct H as (ns & H). discriminate.
    - discriminate. }
  split; [reflexivity|]. split; [reflexivity|]. split.
  { intros w ns Hp Hm Hf Hms.
    assert (Hout : str_in (args.platform ns) builtin_parser_platforms = false).
    { cbn in Hp. destruct Hp as [<-|[<-|[]]]; reflexivity. }
    exact (mapping_required_stops w ns Hm Hf Hms Hout). }
  split; [reflexivity|].
  intros p Hp. cbn in Hp.
  destruct Hp as [<-|[<-|[<-|[<-|[]]]]]; split; reflexivity.
Qed.

Lemma C10_platform_sets_witness :
  (exists ns, parse_args ["validate"; "--platform"; "json"] = Parsed ns)
  /\ do_validate (Demo.world_of (Demo.answer [] [])) (set_platform "json" Demo.bare)
     = ([EStderr (mapping_required_msg "json" ++ nl)], Exit 1)
  /\ parse_args ["validate"; "--platform"; "wel"] = UsageError.
Proof.
  destruct C10_platform_sets as (_ & _ & Hparse & _ & _ & Hrun & _ & Hwel).
  split; [|split].
  - apply (Hparse "json"); [reflexivity | cbn; auto].
  - apply (Hrun (Demo.world_of (Demo.answer [] [])) (set_platform "json" Demo.bare));
      [cbn; auto | reflexivity | reflexivity | reflexivity].
  - apply (Hwel "wel"). cbn; auto.
Defined.

(** ** What the renderer writes *)

Lemma prints_only_bind {A B} (m : M A) (k : A -> M B) :
  prints_only m -> (forall a, prints_only (k a)) -> prints_only (bind m k).
Proof.
  unfold prints_only. destruct m as [t [a|c|e]]; cbn [bind fst]; intros Hm Hk; try assumption.
  specialize (Hk a). destruct (k a) as [t' o]. cbn [fst] in *.
  now rewrite forallb_app, Hm, Hk.
Qed.

Lemma prints_only_print s : prints_only (print s).
Proof. reflexivity. Qed.

Lemma prints_only_ret {A} (a : A) : prints_only (ret a).
Proof. reflexivity. Qed.

Lemma prints_only_exit {A} c : prints_only (@sys_exit A c).
Proof. reflexivity. Qed.

Lemma prints_only_for_each {A} (xs : list A) body :
  (forall x, prints_only (body x)) -> prints_only (for_each xs body).
Proof.
  intros Hbody. induction xs as [|x xs IH]; [reflexivity|].
  cbn [for_each]. apply prints_only_bind; auto.
Qed.

Lemma prints_only_py_get v key default : prints_only (py_get v key default).
Proof. destruct v; reflexivity. Qed.

Lemma prints_only_py_items v : prints_only (py_items v).
Proof. destruct v; reflexivity. Qed.

#[local] Hint Resolve prints_only_print prints_only_ret prints_only_exit
  prints_only_py_get prints_only_py_items : usp.

Lemma prints_only_show_event w i event : prints_only (show_event w i event).
Proof.
  unfold show_event.
  repeat (first [ apply prints_only_bind; [|intros ?]
                | apply prints_only_for_each; intros [key value]; unfold show_field
                | match goal with |- prints_only (if ?b then _ else _) => destruct b end
                | solve [auto with usp] ]).
Qed.

Lemma prints_only_show_events w events : forall i, prints_only (show_events w i events).
Proof.
  induction events as [|event rest IH]; intros i; [reflexivity|].
  cbn [show_events]. apply prints_only_bind; [apply prints_only_show_event | auto].
Qed.

Lemma prints_only_render w ns r : prints_only (do_validate_render w ns r).
Proof.
  unfold do_validate_render.
  repeat (first [ apply prints_only_show_events
                | apply prints_only_bind; [|intros ?]
                | apply prints_only_for_each; intros ?
                | match goal with |- prints_only (if ?b then _ else _) => destruct b end
                | solve [auto with usp] ]).
Qed.

Lemma prints_only_streams t :
  forallb is_stdout t = true -> stderr_of t = [] /\ api_calls t = [].
Proof.
  induction t as [|e t IH]; cbn; [auto|].
  destruct e; cbn; try discriminate. exact IH.
Qed.

(** The events of a whole run, by the way the request phase ends. *)
Lemma run_after_request w ns t req :
  do_validate_request w ns = (t, Ret req) ->
  exists t' o,
    do_validate w ns = (t +++ t', o)
    /\ (t' = [] \/
        (exists rendered, t' = EApiCall req :: rendered /\ forallb is_stdout rendered = true) \/
        (exists e, t' = [EApiCall req; EStderr (("API error: " ++ e) ++ nl)] /\ o = Exit 1
                   /\ validateUSP w req = Err e)).
Proof.
  intros Hreq. unfold do_validate, do_validate_call. rewrite Hreq. cbn [bind].
  destruct (Manager w) as [u|e].
  - destruct (validateUSP w req) as [r|e].
    + cbn. pose proof (prints_only_render w ns r) as Hr. unfold prints_only in Hr.
      destruct (do_validate_render w ns r) as [t' o]. cbn [fst] in Hr.
      do 2 eexists. split; [reflexivity|]. right. left. eexists. split; [reflexivity|assumption].
    + cbn. do 2 eexists. split; [reflexivity|]. right. right. eexists.
      repeat split; reflexivity.
  - cbn. do 2 eexists. split; [reflexivity|]. left. reflexivity.
Qed.

(** ** The input of the request *)

Lemma reports_inv {A} P (m : M A) :
  reports P m ->
  (exists t a, m = (t, Ret a) /\ quiet t)
  \/ (exists t msg, m = (t +++ [EStderr (msg ++ nl)], Exit 1) /\ quiet t /\ P msg)
  \/ (exists t exn, m = (t, Raise exn) /\ quiet t).
Proof.
  intros [t a Ht | t msg Ht Hmsg | t exn Ht];
    [left | right; left | right; right]; eauto 6.
Qed.

Lemma load_text_is_str w path t v :
  _load_file_content w path false = (t, Ret v) -> exists s, v = PStr s.
Proof.
  unfold _load_file_content.
  destruct (fs w path) as [e|e|raw]; try discriminate.
  destruct (utf8_decode w raw) as [content|e]; cbn; [|discriminate].
  intros H. injection H as _ <-. eauto.
Qed.

Lemma input_exclusive w ns t text_input json_input :
  do_validate_input w ns = (t, Ret (text_input, json_input)) ->
  one_input text_input json_input.
Proof.
  unfold do_validate_input, one_input.
  destruct (truthy_arg (args.input_file ns)).
  - destruct (args.input_file ns) as [path|]; [|discriminate].
    destruct (args.json_input ns).
    + destruct (_load_file_content w path true) as [t0 [v|c|e]]; try discriminate.
      destruct v; cbn; try discriminate.
      intros H. injection H as _ <- <-. right. eauto.
    + destruct (_load_file_content w path false) as [t0 [v|c|e]] eqn:Hload;
        try discriminate.
      destruct (load_text_is_str w path t0 v Hload) as (s & ->).
      cbn. intros H. injection H as _ <- <-. left. eauto.
  - destruct (truthy_arg (args.input ns)); [|discriminate].
    destruct (args.input ns) as [text|]; [|discriminate].
    destruct (args.json_input ns).
    + destruct (json_loads w text) as [v|e|exn e]; try discriminate.
      destruct v; cbn; try discriminate.
      intros H. injection H as _ <- <-. right. eauto.
    + cbn. intros H. injection H as _ <- <-. left. eauto.
Qed.

Lemma request_inputs w ns t req :
  do_validate_request w ns = (t, Ret req) ->
  one_input (req_text_input req) (req_json_input req).
Proof.
  unfold do_validate_request.
  destruct (do_validate_mapping w ns) as [t1 [mapping|c|e]]; try discriminate.
  destruct (do_validate_mappings w ns) as [t2 [mappings|c|e]]; try discriminate.
  destruct (do_validate_input w ns) as [t3 [[text_input json_input]|c|e]] eqn:Hin;
    try discriminate.
  destruct (do_validate_indexing w ns) as [t4 [indexing|c|e]]; try discriminate.
  cbn. intros H. injection H as _ <-. cbn.
  exact (input_exclusive w ns t3 text_input json_input Hin).
Qed.

Lemma input_absent w ns :
  truthy_arg (args.input_file ns) = false ->
  truthy_arg (args.input ns) = false ->
  do_validate_input w ns =
    ([EStderr ("Either --input or --input-file is required" ++ nl)], Exit 1).
Proof. intros Hf Hi. unfold do_validate_input. rewrite Hf, Hi. reflexivity. Qed.

Lemma In_api_calls req t : In (EApiCall req) t <-> In req (api_calls t).
Proof.
  unfold api_calls. rewrite in_flat_map. split.
  - intros H. exists (EApiCall req). cbn. auto.
  - intros (e & He & Hin). destruct e; cbn in Hin; try tauto.
    destruct Hin as [->|[]]. assumption.
Qed.

Lemma request_cases w ns :
  (exists t req, do_validate_request w ns = (t, Ret req) /\ quiet t)
  \/ (exists t msg, do_validate_request w ns = (t +++ [EStderr (msg ++ nl)], Exit 1)
                    /\ quiet t /\ is_error_message ns msg)
  \/ (exists t exn, do_validate_request w ns = (t, Raise exn) /\ quiet t).
Proof. apply reports_inv, reports_request. Qed.

Lemma request_raised w ns t exn :
  do_validate_request w ns = (t, Raise exn) -> do_validate w ns = (t, Raise exn).
Proof. intros H. unfold do_validate. rewrite H. reflexivity. Qed.

(** The service is called at most once, with the request the first phase
    has assembled. *)
Lemma called_with w ns req :
  In (EApiCall req) (fst (do_validate w ns)) ->
  exists t, do_validate_request w ns = (t, Ret req).
Proof.
  rewrite In_api_calls.
  destruct (request_cases w ns)
    as [(t & req' & Hreq & Ht) | [(t & msg & Hreq & Ht & _) | (t & exn & Hreq & Ht)]].
  - destruct (run_after_request w ns t req' Hreq) as (t' & o & Hrun & Hcases).
    rewrite Hrun. cbn [fst]. rewrite api_calls_app.
    destruct (quiet_silent t Ht) as (_ & _ & ->). cbn [app].
    destruct Hcases as [-> | [(rendered & -> & Hr) | (e & -> & _ & _)]].
    + intros [].
    + change (api_calls (EApiCall req' :: rendered)) with (req' :: api_calls rendered).
      destruct (prints_only_streams rendered Hr) as (_ & ->).
      intros [<-|[]]. eauto.
    + cbn. intros [<-|[]]. eauto.
  - rewrite (request_failed w ns _ 1 Hreq). cbn [fst].
    destruct (reported_streams t msg Ht) as (_ & _ & ->). intros [].
  - rewrite (request_raised w ns _ _ Hreq). cbn [fst].
    destruct (quiet_silent t Ht) as (_ & _ & ->). intros [].
Qed.

(** ** Exceptions nobody catches *)

Lemma raises_only_bind {A B} Q (m : M A) (k : A -> M B) :
  raises_only Q m -> (forall a, raises_only Q (k a)) -> raises_only Q (bind m k).
Proof.
  intros Hm Hk t exn. destruct m as [t1 [a|c|e]]; cbn.
  - destruct (k a) as [t2 o] eqn:Hka. intros H. injection H as _ ->.
    exact (Hk a t2 exn Hka).
  - discriminate.
  - intros H. injection H as _ <-. exact (Hm t1 e eq_refl).
Qed.

Lemma raises_only_ret {A} Q (a : A) : raises_only Q (ret a).
Proof. intros t exn. discriminate. Qed.

Lemma raises_only_reportError {A} Q msg : raises_only Q (@reportError A msg).
Proof. intros t exn. discriminate. Qed.

Lemma raises_only_emit Q e : raises_only Q (emit e).
Proof. intros t exn. discriminate. Qed.


#[local] Hint Resolve raises_only_ret raises_only_reportError raises_only_emit : usp.

(** The loader of files lets nothing escape: its last handler catches
    every exception. *)
Lemma raises_only_load_file Q w path as_json :
  raises_only Q (_load_file_content w path as_json).
Proof.
  unfold _load_file_content.
  destruct (fs w path) as [e|e|raw]; [auto with usp | auto with usp |].
  apply raises_only_bind; [auto with usp|]. intros _.
  destruct (utf8_decode w raw) as [content|e]; [|auto with usp].
  destruct as_json; [|auto with usp].
  destruct (json_loads w content) as [v|e|exn e]; auto with usp.
Qed.

Lemma raises_only_checked Q w path msg :
  raises_only Q
    (v <- _load_file_content w path true ;;
     if negb (is_list v) then reportError msg else ret v).
Proof.
  apply raises_only_bind; [apply raises_only_load_file|].
  intros v. destruct (negb _); auto with usp.
Qed.

(** The mapping step lets one exception escape: that of [json.loads] on
    the inline mapping. *)
Lemma raises_only_mapping w ns :
  raises_only (inline_mapping_raises w ns) (do_validate_mapping w ns).
Proof.
  unfold do_validate_mapping. apply raises_only_bind.
  - unfold _load_mapping.
    destruct (truthy_arg (args.mapping_file ns)) eqn:Hf.
    + destruct (args.mapping_file ns) as [path|]; [|auto with usp].
      destruct (fs w path) as [e|e|content]; [auto with usp | auto with usp |].
      apply raises_only_bind; [auto with usp|]. intros _.
      destruct (yaml_safe_load w content) as [v|e]; auto with usp.
    + destruct (truthy_arg (args.mapping ns)) eqn:Hm; [|auto with usp].
      destruct (args.mapping ns) as [text|] eqn:Htext; [|auto with usp].
      destruct (json_loads w text) as [v|e|exn e] eqn:Hj; [auto with usp..|].
      intros t exn' H. injection H as _ <-.
      split; [exact Hf|]. split; [now rewrite Htext|]. exists text, e. auto.
  - intros mapping. apply raises_only_bind; [|auto with usp].
    destruct (is_None mapping && _); [|auto with usp].
    destruct (negb _); auto with usp.
Qed.

(** The two steps that only load a file and check its shape let nothing
    escape. *)
Lemma raises_only_mappings Q w ns : raises_only Q (do_validate_mappings w ns).
Proof.
  unfold do_validate_mappings.
  destruct (truthy_arg _); [|auto with usp].
  destruct (args.mappings_file ns) as [path|]; [|auto with usp].
  apply raises_only_checked.
Qed.


(** The input step lets one exception escape: that of [json.loads] on the
    inline input in JSON mode. *)
Lemma raises_only_input w ns :
  raises_only (inline_input_raises w ns) (do_validate_input w ns).
Proof.
  unfold do_validate_input. apply raises_only_bind.
  - destruct (truthy_arg (args.input_file ns)) eqn:Hf.
    + destruct (args.input_file ns) as [path|]; [|auto with usp].
      destruct (args.json_input ns).
      * apply raises_only_bind; [apply raises_only_load_file|].
        intros v. destruct (negb _); auto with usp.
      * apply raises_only_bind; [apply raises_only_load_file|].
        intros v. auto with usp.
    + destruct (truthy_arg (args.input ns)) eqn:Hi; [|auto with usp].
      destruct (args.input ns) as [text|] eqn:Htext; [|auto with usp].
      destruct (args.json_input ns) eqn:Hjson; [|auto with usp].
      destruct (json_loads w text) as [v|e|exn e] eqn:Hj.
      * destruct (negb _); auto with usp.
      * auto with usp.
      * intros t exn' H. injection H as _ <-.
        split; [exact Hf|]. split; [now rewrite Htext|]. split; [exact Hjson|].
        exists text, e. auto.
  - intros [text_input json_input].
    destruct (is_None text_input && is_None json_input); auto with usp.
Qed.


(** ** The order of the checks *)

Lemma reports_ret_quiet {A} P t (a : A) : reports P (t, Ret a) -> quiet t.
Proof. intros H. inversion H. assumption. Qed.

Lemma mapping_quiet w ns t v : do_validate_mapping w ns = (t, Ret v) -> quiet t.
Proof.
  intros H. apply (reports_ret_quiet (is_error_message ns) t v).
  rewrite <- H. apply reports_mapping.
Qed.

Lemma mappings_quiet w ns t v : do_validate_mappings w ns = (t, Ret v) -> quiet t.
Proof.
  intros H. apply (reports_ret_quiet (is_error_message ns) t v).
  rewrite <- H. apply reports_mappings.
Qed.

Lemma input_quiet w ns t v : do_validate_input w ns = (t, Ret v) -> quiet t.
Proof.
  intros H. apply (reports_ret_quiet (is_error_message ns) t v).
  rewrite <- H. apply reports_input.
Qed.

(** A run in which the request is not assembled. *)
Lemma ended_before_call w ns :
  (forall t req, do_validate_request w ns <> (t, Ret req)) ->
  ends_before_call w ns.
Proof.
  intros Hno. unfold ends_before_call, stops_before_call.
  destruct (request_cases w ns)
    as [(t & req & Hreq & _) | [(t & msg & Hreq & Ht & _) | (t & exn & Hreq & Ht)]].
  - destruct (Hno t req Hreq).
  - rewrite (request_failed w ns _ 1 Hreq). cbn [fst snd exit_code].
    destruct (reported_streams t msg Ht) as (Hout & Herr & Hapi).
    split; [assumption|]. split; [assumption|]. split; [reflexivity|].
    intros t' c' H. injection H as <- <-. repeat split; eauto.
  - rewrite (request_raised w ns _ _ Hreq). cbn [fst snd exit_code].
    destruct (quiet_silent t Ht) as (Hout & Herr & Hapi).
    split; [assumption|]. split; [assumption|]. split; [reflexivity|].
    intros t' c' H. discriminate.
Qed.

Lemma stops_at_mapping w ns t1 c :
  do_validate_mapping w ns = (t1, Exit c) ->
  do_validate w ns = (t1, Exit c).
Proof.
  intros H1. apply request_failed. unfold do_validate_request.
  rewrite H1. reflexivity.
Qed.

Lemma stops_at_mappings w ns t1 mapping t2 c :
  do_validate_mapping w ns = (t1, Ret mapping) ->
  do_validate_mappings w ns = (t2, Exit c) ->
  do_validate w ns = (t1 +++ t2, Exit c).
Proof.
  intros H1 H2. apply request_failed. unfold do_validate_request.
  rewrite H1. cbn [bind]. rewrite H2. reflexivity.
Qed.

Lemma stops_at_input w ns t1 mapping t2 mappings t3 c :
  do_validate_mapping w ns = (t1, Ret mapping) ->
  do_validate_mappings w ns = (t2, Ret mappings) ->
  do_validate_input w ns = (t3, Exit c) ->
  do_validate w ns = (t1 +++ t2 +++ t3, Exit c).
Proof.
  intros H1 H2 H3. apply request_failed. unfold do_validate_request.
  rewrite H1. cbn [bind]. rewrite H2. cbn [bind]. rewrite H3. reflexivity.
Qed.

Lemma stops_at_indexing w ns t1 mapping t2 mappings t3 inputs t4 c :
  do_validate_mapping w ns = (t1, Ret mapping) ->
  do_validate_mappings w ns = (t2, Ret mappings) ->
  do_validate_input w ns = (t3, Ret inputs) ->
  do_validate_indexing w ns = (t4, Exit c) ->
  do_validate w ns = (t1 +++ t2 +++ t3 +++ t4, Exit c).
Proof.
  intros H1 H2 H3 H4. apply request_failed. unfold do_validate_request.
  rewrite H1. cbn [bind]. rewrite H2. cbn [bind]. rewrite H3. cbn [bind].
  rewrite H4. reflexivity.
Qed.

Lemma ends_run_mapping w ns : ends_run w ns [] (do_validate_mapping w ns).
Proof.
  split; [apply stops_at_mapping|].
  intros t exn H. apply request_raised. unfold do_validate_request.
  rewrite H. reflexivity.
Qed.

Lemma ends_run_mappings w ns t1 mapping :
  do_validate_mapping w ns = (t1, Ret mapping) ->
  ends_run w ns t1 (do_validate_mappings w ns).
Proof.
  intros H1. split; [intros t c; now apply stops_at_mappings with (mapping := mapping)|].
  intros t exn H. apply request_raised. unfold do_validate_request.
  rewrite H1. cbn [bind]. rewrite H. reflexivity.
Qed.

Lemma ends_run_input w ns t1 mapping t2 mappings :
  do_validate_mapping w ns = (t1, Ret mapping) ->
  do_validate_mappings w ns = (t2, Ret mappings) ->
  ends_run w ns (t1 +++ t2) (do_validate_input w ns).
Proof.
  intros H1 H2. split.
  - intros t c H. rewrite <- app_assoc.
    exact (stops_at_input w ns t1 mapping t2 mappings t c H1 H2 H).
  - intros t exn H. apply request_raised. unfold do_validate_request.
    rewrite H1. cbn [bind]. rewrite H2. cbn [bind]. rewrite H.
    cbn [bind]. now rewrite app_assoc.
Qed.

(** A request is assembled only when each of the four steps returns. *)
Lemma request_steps w ns t req :
  do_validate_request w ns = (t, Ret req) ->
  (exists t1 v, do_validate_mapping w ns = (t1, Ret v))
  /\ (exists t2 v, do_validate_mappings w ns = (t2, Ret v))
  /\ (exists t3 v, do_validate_input w ns = (t3, Ret v))
  /\ (exists t4 v, do_validate_indexing w ns = (t4, Ret v)).
Proof.
  unfold do_validate_request.
  destruct (do_validate_mapping w ns) as [t1 [mapping|c|e]]; try discriminate.
  destruct (do_validate_mappings w ns) as [t2 [mappings|c|e]]; try discriminate.
  destruct (do_validate_input w ns) as [t3 [inputs|c|e]]; try discriminate.
  destruct (do_validate_indexing w ns) as [t4 [indexing|c|e]]; try discriminate.
  intros _. repeat split; eauto.
Qed.

Lemma stderr_of_quiet t t' : quiet t -> stderr_of (t +++ t') = stderr_of t'.
Proof.
  intros Ht. rewrite stderr_of_app. now destruct (quiet_silent t Ht) as (_ & -> & _).
Qed.


(** C6, as the code has it.  Whenever the service is called, the request
    carries either a text input and no JSON input, or a JSON array and no
    text input.  When neither an input file nor a non-empty inline input is
    given, the run never calls the service, prints nothing and has status
    1.  When the mapping and the mappings-file steps, which run first, have
    returned, it is over after the one write to stderr that demands --input
    or --input-file, with [sys.exit(1)].  When one of them has not, the run
    ends as that step ends: in its [reportError], or, for the mapping step
    alone, in an exception of [json.loads] other than a [JSONDecodeError]
    on the inline mapping, which nobody catches and which leaves the
    traceback of the interpreter as the only text on stderr. *)
Theorem C6_input_invariant w ns :
  (forall req, In (EApiCall req) (fst (do_validate w ns)) ->
     one_input (req_text_input req) (req_json_input req))
  /\ (truthy_arg (args.input_file ns) = false ->
      truthy_arg (args.input ns) = false ->
      ends_before_call w ns
      /\ (forall t1 mapping t2 mappings,
            do_validate_mapping w ns = (t1, Ret mapping) ->
            do_validate_mappings w ns = (t2, Ret mappings) ->
            do_validate w ns =
              (t1 +++ t2
               +++ [EStderr ("Either --input or --input-file is required" ++ nl)],
               Exit 1)
            /\ stderr_of (fst (do_validate w ns))
               = ["Either --input or --input-file is required" ++ nl])
      /\ ends_run w ns [] (do_validate_mapping w ns)
      /\ (forall t1 mapping,
            do_validate_mapping w ns = (t1, Ret mapping) ->
            ends_run w ns t1 (do_validate_mappings w ns))
      /\ raises_only (fun _ => False) (do_validate_mappings w ns)
      /\ (forall t exn,
            do_validate w ns = (t, Raise exn) ->
            inline_mapping_raises w ns exn
            /\ do_validate_mapping w ns = (t, Raise exn)
            /\ process_stderr w (do_validate w ns) = [traceback w exn])).
Proof.
  split.
  - intros req Hin. destruct (called_with w ns req Hin) as (t & Hreq).
    exact (request_inputs w ns t req Hreq).
  - intros Hf Hi. pose proof (input_absent w ns Hf Hi) as Hinput.
    assert (Hno : forall t req, do_validate_request w ns <> (t, Ret req)).
    { intros t req Hreq.
      destruct (request_steps w ns t req Hreq) as (_ & _ & (t3 & v & H3) & _).
      rewrite Hinput in H3. discriminate. }
    split; [|split; [|split; [|split; [|split]]]].
    + now apply ended_before_call.
    + intros t1 mapping t2 mappings H1 H2.
      rewrite (stops_at_input w ns t1 mapping t2 mappings _ 1 H1 H2 Hinput).
      split; [reflexivity|]. cbn [fst].
      rewrite (stderr_of_quiet t1 _ (mapping_quiet w ns t1 mapping H1)).
      rewrite (stderr_of_quiet t2 _ (mappings_quiet w ns t2 mappings H2)).
      reflexivity.
    + apply ends_run_mapping.
    + apply ends_run_mappings.
    + apply raises_only_mappings.
    + intros t exn Hrun.
      destruct (do_validate_mapping w ns) as [t1 [mapping|c|exn1]] eqn:H1.
      * destruct (do_validate_mappings w ns) as [t2 [mappings|c|exn2]] eqn:H2.
        -- rewrite (stops_at_input w ns t1 mapping t2 mappings _ 1 H1 H2 Hinput) in Hrun.
           discriminate.
        -- rewrite (stops_at_mappings w ns t1 mapping t2 c H1 H2) in Hrun. discriminate.
        -- destruct (raises_only_mappings (fun _ => False) w ns t2 exn2 H2).
      * rewrite (stops_at_mapping w ns t1 c H1) in Hrun. discriminate.
      * pose proof (proj2 (ends_run_mapping w ns) t1 exn1 H1) as Hrun'.
        rewrite Hrun in Hrun'. injection Hrun' as -> ->.
        split; [exact (raises_only_mapping w ns t1 exn1 H1)|].
        split; [reflexivity|].
        unfold process_stderr. rewrite Hrun. cbn [fst snd].
        assert (Hq : quiet t1).
        { pose proof (reports_mapping w ns) as Hr. rewrite H1 in Hr.
          inversion Hr. assumption. }
        destruct (quiet_silent t1 Hq) as (_ & -> & _). reflexivity.
Qed.

Lemma C6_input_invariant_witness :
  stderr_of (fst (do_validate (Demo.world_of (Demo.answer [] []))
                    (set_platform "cef" Demo.bare)))
  = ["Either --input or --input-file is required" ++ nl].
Proof.
  destruct (C6_input_invariant (Demo.world_of (Demo.answer [] []))
              (set_platform "cef" Demo.bare)) as (_ & H).
  destruct (H eq_refl eq_refl) as (_ & Hmsg & _).
  apply (Hmsg [] PNone [] PNone); reflexivity.
Defined.

(** C6 as claimed fails on [validate] with no flag at all: the platform is
    text, nothing supplies a mapping, and the run ends on the mapping
    requirement, whose message does not mention --input. *)
Lemma C6_counterexample :
  ~ (forall w ns,
       truthy_arg (args.input_file ns) = false ->
       truthy_arg (args.input ns) = false ->
       exists t msg,
         do_validate w ns = (t, Exit 1)
         /\ api_calls t = []
         /\ stderr_of t = [msg]
         /\ contains "--input" msg = true).
Proof.
  intros H.
  destruct (H (Demo.world_of (Demo.answer [] [])) Demo.bare eq_refl eq_refl)
    as (t & msg & Hrun & _ & Hmsg & Hdemand).
  vm_compute in Hrun. injection Hrun as <-.
  vm_compute in Hmsg. injection Hmsg as <-.
  vm_compute in Hdemand. discriminate.
Qed.

(** ** The array checks *)

Lemma load_json_file w path v :
  loads_json w path v -> _load_file_content w path true = ([EOpen path], Ret v).
Proof.
  intros (raw & content & Hfs & Hdec & Hjson). unfold _load_file_content.
  rewrite Hfs, Hdec, Hjson. reflexivity.
Qed.

Lemma mappings_not_array w ns path v :
  args.mappings_file ns = Some path -> truthy_arg (Some path) = true ->
  loads_json w path v -> is_list v = false ->
  do_validate_mappings w ns =
    ([EOpen path;
      EStderr ("--mappings-file must contain a JSON array of mapping descriptors" ++ nl)],
     Exit 1).
Proof.
  intros Hp Ht Hload Hv. unfold do_validate_mappings.
  rewrite Hp, Ht, (load_json_file w path v Hload). cbn [bind]. rewrite Hv. reflexivity.
Qed.

Lemma input_file_not_array w ns path v :
  args.input_file ns = Some path -> truthy_arg (Some path) = true ->
  args.json_input ns = true ->
  loads_json w path v -> is_list v = false ->
  do_validate_input w ns =
    ([EOpen path; EStderr ("JSON input must be an array of objects" ++ nl)], Exit 1).
Proof.
  intros Hp Ht Hj Hload Hv. unfold do_validate_input.
  rewrite Hp, Ht, Hj, (load_json_file w path v Hload). cbn [bind]. rewrite Hv. reflexivity.
Qed.

Lemma input_inline_not_array w ns text v :
  truthy_arg (args.input_file ns) = false ->
  args.input ns = Some text -> truthy_arg (Some text) = true ->
  args.json_input ns = true ->
  json_loads w text = JsonValue v -> is_list v = false ->
  do_validate_input w ns =
    ([EStderr ("JSON input must be an array of objects" ++ nl)], Exit 1).
Proof.
  intros Hf Hp Ht Hj Hload Hv. unfold do_validate_input.
  rewrite Hf, Hp, Ht, Hj, Hload, Hv. reflexivity.
Qed.

Lemma indexing_not_array w ns path v :
  args.indexing_file ns = Some path -> truthy_arg (Some path) = true ->
  loads_json w path v -> is_list v = false ->
  do_validate_indexing w ns =
    ([EOpen path;
      EStderr ("--indexing-file must contain a JSON array of indexing rules" ++ nl)],
     Exit 1).
Proof.
  intros Hp Ht Hload Hv. unfold do_validate_indexing.
  rewrite Hp, Ht, (load_json_file w path v Hload). cbn [bind]. rewrite Hv. reflexivity.
Qed.

(** C7, as the code has it.  A mappings file, an indexing file or a JSON
    input (a file, or the inline text) that parses as JSON to something
    other than an array keeps the run from the service: no call, nothing on
    stdout, status 1.  The checks run in the order mapping, mappings file,
    input, indexing file and the first step that does not return ends the
    run.  So when the steps before the array check have returned, the run
    is over after the one write to stderr of that check's message, which
    has the word array in it, with [sys.exit(1)]; and when an earlier step
    has not returned, the run ends as that step ends: in its [reportError],
    or in an exception of [json.loads] other than a [JSONDecodeError] on
    the inline mapping or the inline JSON input, which nobody catches. *)
Theorem C7_array_checks w ns source v :
  is_list v = false ->
  truthy_arg (Some source) = true ->
  (args.mappings_file ns = Some source -> loads_json w source v ->
   ends_before_call w ns
   /\ forall t1 m,
        do_validate_mapping w ns = (t1, Ret m) ->
        do_validate w ns =
          (t1 +++ [EOpen source;
                   EStderr ("--mappings-file must contain a JSON array of mapping descriptors"
                            ++ nl)],
           Exit 1))
  /\ (args.json_input ns = true ->
      (args.input_file ns = Some source /\ loads_json w source v)
      \/ (truthy_arg (args.input_file ns) = false
          /\ args.input ns = Some source /\ json_loads w source = JsonValue v) ->
      ends_before_call w ns
      /\ forall t1 m t2 ms,
           do_validate_mapping w ns = (t1, Ret m) ->
           do_validate_mappings w ns = (t2, Ret ms) ->
           exists t3,
             (t3 = [] \/ t3 = [EOpen source])
             /\ do_validate w ns =
                  (t1 +++ t2 +++ t3
                   +++ [EStderr ("JSON input must be an array of objects" ++ nl)],
                   Exit 1))
  /\ (args.indexing_file ns = Some source -> loads_json w source v ->
      ends_before_call w ns
      /\ forall t1 m t2 ms t3 inputs,
           do_validate_mapping w ns = (t1, Ret m) ->
           do_validate_mappings w ns = (t2, Ret ms) ->
           do_validate_input w ns = (t3, Ret inputs) ->
           do_validate w ns =
             (t1 +++ t2 +++ t3
              +++ [EOpen source;
                   EStderr ("--indexing-file must contain a JSON array of indexing rules"
                            ++ nl)],
              Exit 1))
  /\ (ends_run w ns [] (do_validate_mapping w ns)
      /\ (forall t1 m,
            do_validate_mapping w ns = (t1, Ret m) ->
            ends_run w ns t1 (do_validate_mappings w ns))
      /\ (forall t1 m t2 ms,
            do_validate_mapping w ns = (t1, Ret m) ->
            do_validate_mappings w ns = (t2, Ret ms) ->
            ends_run w ns (t1 +++ t2) (do_validate_input w ns))
      /\ raises_only (inline_mapping_raises w ns) (do_validate_mapping w ns)
      /\ raises_only (fun _ => False) (do_validate_mappings w ns)
      /\ raises_only (inline_input_raises w ns) (do_validate_input w ns))
  /\ contains "array" "--mappings-file must contain a JSON array of mapping descriptors" = true
  /\ contains "array" "JSON input must be an array of objects" = true
  /\ contains "array" "--indexing-file must contain a JSON array of indexing rules" = true.
Proof.
  intros Hv Ht.
  split; [|split; [|split; [|split; [|repeat split; reflexivity]]]].
  - intros Hp Hload. pose proof (mappings_not_array w ns source v Hp Ht Hload Hv) as Hstep.
    split.
    + apply ended_before_call. intros t req Hreq.
      destruct (request_steps w ns t req Hreq) as (_ & (t2 & x & H2) & _).
      rewrite Hstep in H2. discriminate.
    + intros t1 m H1. exact (stops_at_mappings w ns t1 m _ 1 H1 Hstep).
  - intros Hj Hsrc.
    assert (Hstep : exists t3,
               (t3 = [] \/ t3 = [EOpen source])
               /\ do_validate_input w ns =
                    (t3 +++ [EStderr ("JSON input must be an array of objects" ++ nl)],
                     Exit 1)).
    { destruct Hsrc as [(Hp & Hload) | (Hf & Hp & Hload)].
      - rewrite (input_file_not_array w ns source v Hp Ht Hj Hload Hv).
        exists [EOpen source]. auto.
      - rewrite (input_inline_not_array w ns source v Hf Hp Ht Hj Hload Hv).
        exists []. auto. }
    destruct Hstep as (t3 & Ht3 & Hstep). split.
    + apply ended_before_call. intros t req Hreq.
      destruct (request_steps w ns t req Hreq) as (_ & _ & (t3' & x & H3) & _).
      rewrite Hstep in H3. discriminate.
    + intros t1 m t2 ms H1 H2. exists t3. split; [assumption|].
      exact (stops_at_input w ns t1 m t2 ms _ 1 H1 H2 Hstep).
  - intros Hp Hload. pose proof (indexing_not_array w ns source v Hp Ht Hload Hv) as Hstep.
    split.
    + apply ended_before_call. intros t req Hreq.
      destruct (request_steps w ns t req Hreq) as (_ & _ & _ & (t4 & x & H4)).
      rewrite Hstep in H4. discriminate.
    + intros t1 m t2 ms t3 inputs H1 H2 H3.
      exact (stops_at_indexing w ns t1 m t2 ms t3 inputs _ 1 H1 H2 H3 Hstep).
  - split; [apply ends_run_mapping|].
    split; [apply ends_run_mappings|].
    split; [apply ends_run_input|].
    split; [apply raises_only_mapping|].
    split; [apply raises_only_mappings | apply raises_only_input].
Qed.

Lemma C7_array_checks_witness :
  do_validate (Demo.world_of (Demo.answer [] []))
    (set_mappings_file "obj.json" (Demo.inline "text" "test" "summary"))
  = ([EOpen "obj.json";
      EStderr ("--mappings-file must contain a JSON array of mapping descriptors" ++ nl)],
     Exit 1).
Proof.
  destruct (C7_array_checks (Demo.world_of (Demo.answer [] []))
              (set_mappings_file "obj.json" (Demo.inline "text" "test" "summary"))
              "obj.json" (PDict []) eq_refl eq_refl) as (H & _).
  destruct (H eq_refl) as (_ & Hrun).
  - exists "{}", "{}". repeat split; reflexivity.
  - exact (Hrun [] PNone eq_refl).
Defined.

(** On [validate -p cef --indexing-file obj.json] the run is over before the
    indexing file is looked at. *)
Lemma indexing_only_run :
  do_validate (Demo.world_of (Demo.answer [] [])) Demo.indexing_only
  = ([EStderr ("Either --input or --input-file is required" ++ nl)], Exit 1)
  /\ opened (fst (do_validate (Demo.world_of (Demo.answer [] [])) Demo.indexing_only)) = [].
Proof. split; reflexivity. Qed.

(** C7 as claimed fails on [validate -p cef --indexing-file obj.json],
    where obj.json holds a JSON object: no input is given, the run ends on
    the input requirement, the indexing file is never opened and the
    message has no word array in it. *)
Lemma C7_counterexample :
  ~ (forall w ns path v,
       args.indexing_file ns = Some path -> truthy_arg (Some path) = true ->
       loads_json w path v -> is_list v = false ->
       exists t msg,
         do_validate w ns = (t, Exit 1)
         /\ api_calls t = []
         /\ stderr_of t = [msg]
         /\ contains "array" msg = true).
Proof.
  intros H.
  destruct (H (Demo.world_of (Demo.answer [] [])) Demo.indexing_only
              "obj.json" (PDict []) eq_refl eq_refl)
    as (t & msg & Hrun & _ & Hmsg & Harray); [|reflexivity|].
  - exists "{}", "{}". repeat split; reflexivity.
  - vm_compute in Hrun. injection Hrun as <-.
    vm_compute in Hmsg. injection Hmsg as <-.
    vm_compute in Harray. discriminate.
Qed.

(** ** File first *)

Lemma load_mapping_file_first w ns ns' :
  truthy_arg (args.mapping_file ns) = true ->
  args.mapping_file ns' = args.mapping_file ns ->
  _load_mapping w ns' = _load_mapping w ns.
Proof. intros Ht Heq. unfold _load_mapping. rewrite Heq, Ht. reflexivity. Qed.

Lemma input_file_first w ns ns' :
  truthy_arg (args.input_file ns) = true ->
  args.input_file ns' = args.input_file ns ->
  args.json_input ns' = args.json_input ns ->
  do_validate_input w ns' = do_validate_input w ns.
Proof. intros Ht Heq Hj. unfold do_validate_input. rewrite Heq, Hj, Ht. reflexivity. Qed.

Lemma inline_ignored w ns m i :
  truthy_arg (args.mapping_file ns) = true ->
  truthy_arg (args.input_file ns) = true ->
  do_validate w (set_input i (set_mapping m ns)) = do_validate w ns.
Proof.
  intros Hm Hi. set (ns' := set_input i (set_mapping m ns)).
  assert (H1 : do_validate_mapping w ns' = do_validate_mapping w ns).
  { unfold do_validate_mapping.
    rewrite (load_mapping_file_first w ns ns' Hm eq_refl). reflexivity. }
  assert (H3 : do_validate_input w ns' = do_validate_input w ns).
  { apply input_file_first; [assumption | reflexivity | reflexivity]. }
  unfold do_validate, do_validate_request. rewrite H1, H3. reflexivity.
Qed.

(** C8, as the code has it.  In [_load_mapping] a (non-empty) mapping file
    decides the result whatever the inline mapping is, and in the input
    step a (non-empty) input file decides it whatever the inline input is;
    a whole run with both files is the same run whatever inline mapping and
    inline input are added.  The parser puts no exclusion on the two input
    flags: [--input x --input-file f] is accepted with both values stored,
    and the run goes on to [do_validate]. *)
Theorem C8_file_first w ns ns' :
  (truthy_arg (args.mapping_file ns) = true ->
   args.mapping_file ns' = args.mapping_file ns ->
   _load_mapping w ns' = _load_mapping w ns)
  /\ (truthy_arg (args.input_file ns) = true ->
      args.input_file ns' = args.input_file ns ->
      args.json_input ns' = args.json_input ns ->
      do_validate_input w ns' = do_validate_input w ns)
  /\ (truthy_arg (args.mapping_file ns) = true ->
      truthy_arg (args.input_file ns) = true ->
      forall m i, do_validate w (set_input i (set_mapping m ns)) = do_validate w ns)
  /\ (forall x f, is_dashed x = false -> is_dashed f = false ->
        parse_args ["validate"; "--input"; x; "--input-file"; f]
        = Parsed (set_action "validate" (set_input_file f (set_input x defaults)))
        /\ main w ["validate"; "--input"; x; "--input-file"; f]
           = Some (do_validate w
                     (set_action "validate" (set_input_file f (set_input x defaults))))).
Proof.
  split; [|split; [|split]].
  - apply load_mapping_file_first.
  - apply input_file_first.
  - intros Hm Hi m i. now apply inline_ignored.
  - intros x f Hx Hf.
    assert (Hparse : parse_args ["validate"; "--input"; x; "--input-file"; f]
                     = Parsed (set_action "validate"
                                 (set_input_file f (set_input x defaults)))).
    { unfold parse_args. cbn. rewrite Hx, Hf. reflexivity. }
    split; [exact Hparse|]. unfold main. rewrite Hparse. reflexivity.
Qed.

Lemma C8_file_first_witness :
  do_validate (Demo.world_of (Demo.answer [] [])) (Demo.both "{" "ignored")
  = do_validate (Demo.world_of (Demo.answer [] []))
      (set_input_file "sample.log" (set_mapping_file "map.yaml" Demo.bare)).
Proof.
  destruct (C8_file_first (Demo.world_of (Demo.answer [] []))
              (set_input_file "sample.log" (set_mapping_file "map.yaml" Demo.bare))
              Demo.bare) as (_ & _ & H & _).
  exact (H eq_refl eq_refl "{" "ignored").
Defined.

(** C8 as claimed fails on [validate --input x --input-file sample.log]:
    the parser accepts the two input flags together. *)
Lemma C8_counterexample :
  ~ (forall argv ns,
       parse_args argv = Parsed ns ->
       args.input ns = None \/ args.input_file ns = None).
Proof.
  intros H.
  destruct (H ["validate"; "--input"; "x"; "--input-file"; "sample.log"] _ eq_refl)
    as [Hi | Hf]; discriminate.
Qed.

(** ** One message, and its lines *)

Lemma newlines_app a b : newlines (a ++ b) = newlines a + newlines b.
Proof.
  induction a as [|c a IH]; [reflexivity|].
  cbn [append newlines]. rewrite IH. apply Nat.add_assoc.
Qed.

Lemma mapping_required_lines platform :
  single_line platform -> newlines (mapping_required_msg platform ++ nl) = 3.
Proof.
  intros Hp. unfold mapping_required_msg. rewrite !newlines_app, Hp. reflexivity.
Qed.





(** ** The scenarios of the specification *)

Lemma C3_hard_failure_witness :
  (stdout_of (fst (do_validate (Demo.world_of (Demo.answer [PStr "bad regex"] []))
                     (Demo.inline "cef" "test data" "summary")))
   = ["VALIDATION FAILED" ++ nl ++ nl; "Errors:" ++ nl; "  - bad regex" ++ nl; nl]
   /\ exit_code (snd (do_validate (Demo.world_of (Demo.answer [PStr "bad regex"] []))
                        (Demo.inline "cef" "test data" "summary"))) = 1%Z)
  /\ (stdout_of (fst (do_validate
                        (Demo.world_of
                           (Demo.answer [PStr "bad regex"; PStr "no such field"]
                              [Demo.event_ab; Demo.event_atom]))
                        (Demo.inline "cef" "test data" "summary")))
      = ["VALIDATION FAILED" ++ nl ++ nl; "Errors:" ++ nl;
         "  - bad regex" ++ nl; "  - no such field" ++ nl; nl;
         "Partially parsed 2 event(s) before failure." ++ nl]
      /\ exit_code (snd (do_validate
                           (Demo.world_of
                              (Demo.answer [PStr "bad regex"; PStr "no such field"]
                                 [Demo.event_ab; Demo.event_atom]))
                           (Demo.inline "cef" "test data" "summary"))) = 1%Z
      /\ read_nat "2" = Some 2).
Proof.
  split.
  - destruct (C3_hard_failure (Demo.world_of (Demo.answer [PStr "bad regex"] []))
                (Demo.inline "cef" "test data" "summary") [] _ _
                eq_refl eq_refl eq_refl ltac:(discriminate))
      as (_ & Hout & _ & Hcode & _).
    split; [exact Hout | exact Hcode].
  - destruct (C3_hard_failure
                (Demo.world_of
                   (Demo.answer [PStr "bad regex"; PStr "no such field"]
                      [Demo.event_ab; Demo.event_atom]))
                (Demo.inline "cef" "test data" "summary") [] _ _
                eq_refl eq_refl eq_refl ltac:(discriminate))
      as (_ & Hout & _ & Hcode & Hread).
    split; [exact Hout | split; [exact Hcode | exact Hread]].
Defined.

Lemma C2_empty_result_witness :
  contains "No events were parsed"
    (String.concat ""
       (stdout_of (fst (do_validate (Demo.world_of (Demo.answer [] []))
                          (Demo.inline "cef" "test data" "summary"))))) = true
  /\ exit_code (snd (do_validate (Demo.world_of (Demo.answer [] []))
                       (Demo.inline "cef" "test data" "summary"))) = 1%Z.
Proof.
  destruct (C2_empty_result (Demo.world_of (Demo.answer [] []))
              (Demo.inline "cef" "test data" "summary") [] _ _
              eq_refl eq_refl eq_refl eq_refl eq_refl)
    as (_ & Hout & _ & Hcode).
  split; [rewrite Hout; reflexivity | exact Hcode].
Defined.

(** * Further properties of the code *)

(** ** Texts that name their subject *)

Lemma prefix_app x y : prefix x (x ++ y) = true.
Proof.
  induction x as [|c x IH]; [destruct y; reflexivity|].
  cbn. destruct (ascii_dec c c) as [_|Hc]; [exact IH | now destruct Hc].
Qed.

Lemma contains_prefix x hay : prefix x hay = true -> contains x hay = true.
Proof. intros H. destruct hay; cbn [contains]; rewrite H; reflexivity. Qed.

Lemma contains_skip x a hay : contains x hay = true -> contains x (a ++ hay) = true.
Proof.
  intros H. induction a as [|c a IH]; [exact H|].
  cbn [append contains]. rewrite IH. apply orb_true_r.
Qed.

Lemma contains_infix x a b : contains x (a ++ x ++ b) = true.
Proof. apply contains_skip, contains_prefix, prefix_app. Qed.

Lemma prefix_refl x : prefix x x = true.
Proof.
  induction x as [|c x IH]; [reflexivity|].
  cbn. destruct (ascii_dec c c) as [_|Hc]; [exact IH | now destruct Hc].
Qed.

Lemma contains_suffix x a : contains x (a ++ x) = true.
Proof. apply contains_skip, contains_prefix, prefix_refl. Qed.

(** ** The file loader (USP.py 46-68) *)

(** X1: in JSON mode the loader returns a value exactly when the file
    reads, decodes and parses to that value, and then the only event is the
    read of that file. *)
Theorem X1_load_json_iff w path v :
  (forall t, _load_file_content w path true = (t, Ret v) ->
             t = [EOpen path] /\ loads_json w path v)
  /\ (loads_json w path v -> _load_file_content w path true = ([EOpen path], Ret v)).
Proof.
  split; [|apply load_json_file].
  intros t. unfold _load_file_content, loads_json.
  destruct (fs w path) as [e|e|raw] eqn:Hfs; try discriminate.
  destruct (utf8_decode w raw) as [content|e] eqn:Hdec; cbn; [|discriminate].
  destruct (json_loads w content) as [v'|e|exn e] eqn:Hj; cbn; try discriminate.
  intros H. injection H as <- <-. split; [reflexivity|].
  exists raw, content. auto.
Qed.

Lemma X1_load_json_iff_witness :
  _load_file_content (Demo.world_of (Demo.answer [] [])) "arr.json" true
  = ([EOpen "arr.json"], Ret (PList [])).
Proof.
  apply (X1_load_json_iff (Demo.world_of (Demo.answer [] [])) "arr.json" (PList [])).
  exists "[]", "[]". repeat split; reflexivity.
Defined.

(** X2: a file that reads and decodes but is not JSON, so that
    [json.loads] raises [JSONDecodeError].  In JSON mode the loader stops
    with status 1 and a message that gives the path and the parser's text;
    in text mode the same file loads, as a str holding the decoded
    content. *)
Theorem X2_load_invalid_json w path raw content e :
  fs w path = Bytes raw ->
  utf8_decode w raw = Ok content ->
  json_loads w content = JsonDecodeError e ->
  _load_file_content w path true =
    ([EOpen path; EStderr (("Invalid JSON in file " ++ path ++ ": " ++ e) ++ nl)], Exit 1)
  /\ _load_file_content w path false = ([EOpen path], Ret (PStr content)).
Proof.
  intros Hfs Hdec Hj. unfold _load_file_content. rewrite Hfs, Hdec, Hj.
  split; reflexivity.
Qed.

Lemma X2_load_invalid_json_witness :
  _load_file_content (Demo.world_of (Demo.answer [] [])) "sample.log" false
  = ([EOpen "sample.log"], Ret (PStr "Jan 1 host msg")).
Proof.
  apply (X2_load_invalid_json (Demo.world_of (Demo.answer [] [])) "sample.log"
           "Jan 1 host msg" "Jan 1 host msg" "Expecting value: line 1 column 1 (char 0)");
    reflexivity.
Defined.

(** X3: whatever the file system and the parsers do, the loader either
    returns after reading the file (in text mode always a str), or stops
    with status 1 after exactly one write to stderr whose message contains
    the path.  It prints nothing, calls nothing and lets no exception
    escape. *)
Theorem X3_load_outcomes w path as_json :
  (exists v, _load_file_content w path as_json = ([EOpen path], Ret v)
             /\ (as_json = false -> is_str v = true))
  \/ (exists t msg,
        _load_file_content w path as_json = (t +++ [EStderr (msg ++ nl)], Exit 1)
        /\ (t = [] \/ t = [EOpen path])
        /\ contains path msg = true).
Proof.
  unfold _load_file_content.
  destruct (fs w path) as [e|e|raw].
  - right. exists [], ("File not found: " ++ path). repeat split; auto.
    apply contains_suffix.
  - right. exists [], ("Error reading file " ++ path ++ ": " ++ e). repeat split; auto.
    apply contains_infix.
  - destruct (utf8_decode w raw) as [content|e].
    + destruct as_json.
      * destruct (json_loads w content) as [v|e|exn e].
        -- left. exists v. split; [reflexivity | discriminate].
        -- right. exists [EOpen path], ("Invalid JSON in file " ++ path ++ ": " ++ e).
           repeat split; auto. apply contains_infix.
        -- right. exists [EOpen path], ("Error reading file " ++ path ++ ": " ++ e).
           repeat split; auto. apply contains_infix.
      * left. exists (PStr content). split; reflexivity.
    + right. exists [EOpen path], ("Error reading file " ++ path ++ ": " ++ e).
      repeat split; auto. apply contains_infix.
Qed.

(** ** The mapping resolver (USP.py 71-94) *)

Lemma truthy_arg_nonempty s : s <> "" -> truthy_arg (Some s) = true.
Proof. intros H. cbn. now apply negb_true_iff, String.eqb_neq. Qed.

Lemma truthy_arg_blank o : In o [None; Some ""] -> truthy_arg o = false.
Proof. intros [<-|[<-|[]]]; reflexivity. Qed.

(** X4: an argument that is missing and one that is the empty string are
    the same to the resolver: with neither a non-empty mapping file nor a
    non-empty inline mapping it returns None and touches nothing. *)
Theorem X4_load_mapping_absent w ns :
  In (args.mapping_file ns) [None; Some ""] ->
  In (args.mapping ns) [None; Some ""] ->
  _load_mapping w ns = ([], Ret PNone).
Proof.
  intros Hf Hm. unfold _load_mapping.
  rewrite (truthy_arg_blank _ Hf), (truthy_arg_blank _ Hm). reflexivity.
Qed.

Lemma X4_load_mapping_absent_witness :
  _load_mapping (Demo.world_of (Demo.answer [] []))
    (set_mapping "" (set_mapping_file "" Demo.bare)) = ([], Ret PNone).
Proof.
  apply X4_load_mapping_absent; cbn; auto.
Defined.

(** X5: without a non-empty mapping file, a non-empty inline mapping is
    parsed as JSON and nothing else, and no file is read.  The parsed value
    is the result.  A [JSONDecodeError] ends the run with status 1 and the
    message [Invalid JSON in mapping argument: ...].  Any other exception
    of [json.loads] is not caught: it escapes with nothing written by the
    script, so the process ends with status 1 and the traceback of the
    interpreter on stderr. *)
Theorem X5_load_mapping_inline w ns text :
  In (args.mapping_file ns) [None; Some ""] ->
  args.mapping ns = Some text ->
  text <> "" ->
  _load_mapping w ns =
    match json_loads w text with
    | JsonValue v => ([], Ret v)
    | JsonDecodeError e =>
        ([EStderr (("Invalid JSON in mapping argument: " ++ e) ++ nl)], Exit 1)
    | JsonOtherError exn _ => ([], Raise exn)
    end
  /\ (forall exn e,
        json_loads w text = JsonOtherError exn e ->
        exit_code (snd (_load_mapping w ns)) = 1%Z
        /\ process_stderr w (_load_mapping w ns) = [traceback w exn]
        /\ do_validate w ns = ([], Raise exn)).
Proof.
  intros Hf Hm Ht.
  assert (Hload : _load_mapping w ns =
                  match json_loads w text with
                  | JsonValue v => ([], Ret v)
                  | JsonDecodeError e =>
                      ([EStderr (("Invalid JSON in mapping argument: " ++ e) ++ nl)],
                       Exit 1)
                  | JsonOtherError exn _ => ([], Raise exn)
                  end).
  { unfold _load_mapping.
    rewrite (truthy_arg_blank _ Hf), Hm, (truthy_arg_nonempty text Ht).
    destruct (json_loads w text); reflexivity. }
  split; [exact Hload|].
  intros exn e Hj. rewrite Hj in Hload.
  unfold do_validate, do_validate_request, do_validate_mapping.
  rewrite Hload. repeat split; reflexivity.
Qed.

Lemma X5_load_mapping_inline_witness :
  _load_mapping (Demo.world_of (Demo.answer [] []))
    (set_mapping "{}" (set_mapping_file "" Demo.bare)) = ([], Ret (PDict []))
  /\ do_validate (Demo.world_of (Demo.answer [] []))
       (set_mapping Demo.nested (Demo.inline "text" "x" "summary"))
     = ([], Raise "RecursionError").
Proof.
  split.
  - apply (X5_load_mapping_inline (Demo.world_of (Demo.answer [] []))
             (set_mapping "{}" (set_mapping_file "" Demo.bare)) "{}");
      [cbn; auto | reflexivity | discriminate].
  - assert (Hne : Demo.nested <> "") by (vm_compute; discriminate).
    destruct (X5_load_mapping_inline (Demo.world_of (Demo.answer [] []))
                (set_mapping Demo.nested (Demo.inline "text" "x" "summary"))
                Demo.nested (or_introl eq_refl) eq_refl Hne) as (_ & H).
    exact (proj2 (proj2 (H "RecursionError" _ eq_refl))).
Defined.

(** X6: a non-empty mapping file is read as bytes and parsed by the YAML
    loader.  Either that gives the result, after one read, or the run ends
    with status 1 after one write to stderr whose message begins
    [Error loading mapping file: ], be the cause a missing file, a read
    error or a parse error.  The inline mapping plays no part. *)
Theorem X6_load_mapping_file w ns path :
  args.mapping_file ns = Some path ->
  path <> "" ->
  (forall content v,
     fs w path = Bytes content -> yaml_safe_load w content = Ok v ->
     _load_mapping w ns = ([EOpen path], Ret v))
  /\ ((exists v, _load_mapping w ns = ([EOpen path], Ret v))
      \/ (exists t e,
            _load_mapping w ns =
              (t +++ [EStderr (("Error loading mapping file: " ++ e) ++ nl)], Exit 1)
            /\ (t = [] \/ t = [EOpen path]))).
Proof.
  intros Hp Hne. unfold _load_mapping. rewrite Hp, (truthy_arg_nonempty path Hne).
  split.
  - intros content v Hfs Hy. rewrite Hfs, Hy. reflexivity.
  - destruct (fs w path) as [e|e|content].
    + right. exists [], e. auto.
    + right. exists [], e. auto.
    + destruct (yaml_safe_load w content) as [v|e].
      * left. exists v. reflexivity.
      * right. exists [EOpen path], e. auto.
Qed.

Lemma X6_load_mapping_file_witness :
  _load_mapping (Demo.world_of (Demo.answer [] [])) (Demo.both "{" "x")
  = ([EOpen "map.yaml"], Ret (PDict [("parsing_re", PStr ".*")])).
Proof.
  destruct (X6_load_mapping_file (Demo.world_of (Demo.answer [] []))
              (Demo.both "{" "x") "map.yaml" eq_refl ltac:(discriminate)) as (H & _).
  apply (H "parsing_re: .*"); reflexivity.
Defined.

(** ** The mapping requirement (USP.py 114-128) *)

(** X7: a mapping that loads as None (a YAML or JSON null, an empty YAML
    document) counts as no mapping.  Without a mappings file and on a
    platform that has no built-in parser the run then ends on the mapping
    requirement, although a mapping source was given. *)
Theorem X7_null_mapping_is_no_mapping w ns t :
  _load_mapping w ns = (t, Ret PNone) ->
  args.mappings_file ns = None ->
  str_in (args.platform ns) builtin_parser_platforms = false ->
  do_validate w ns =
    (t +++ [EStderr (mapping_required_msg (args.platform ns) ++ nl)], Exit 1).
Proof.
  intros Hload Hms Hp. apply request_failed.
  unfold do_validate_request, do_validate_mapping. rewrite Hload, Hms, Hp. reflexivity.
Qed.

Lemma X7_null_mapping_is_no_mapping_witness :
  do_validate (Demo.world_of (Demo.answer [] []))
    (set_mapping "null" (Demo.inline "text" "test" "summary"))
  = ([EStderr (mapping_required_msg "text" ++ nl)], Exit 1).
Proof.
  apply (X7_null_mapping_is_no_mapping (Demo.world_of (Demo.answer [] []))
           (set_mapping "null" (Demo.inline "text" "test" "summary")) []);
    reflexivity.
Defined.

(** X8: [--mappings-file] given as the empty string.  The requirement test
    asks whether the attribute is None, the loading test whether it is
    non-empty, so the empty string passes the first and skips the second:
    with no mapping at all, on any platform, both mapping steps return
    None and the request that is assembled carries neither a mapping nor a
    list of mappings. *)
Theorem X8_empty_mappings_file w ns t t3 inputs t4 indexing :
  args.mappings_file ns = Some "" ->
  _load_mapping w ns = (t, Ret PNone) ->
  do_validate_input w ns = (t3, Ret inputs) ->
  do_validate_indexing w ns = (t4, Ret indexing) ->
  do_validate_request w ns =
    (t +++ t3 +++ t4,
     Ret {| req_platform := args.platform ns;
            req_hostname := args.hostname ns;
            req_mapping := PNone;
            req_mappings := PNone;
            req_indexing := indexing;
            req_text_input := fst inputs;
            req_json_input := snd inputs |}).
Proof.
  intros Hms Hload Hin Hidx.
  unfold do_validate_request, do_validate_mapping, do_validate_mappings.
  rewrite Hload, Hms, Hin, Hidx. cbn. rewrite !app_nil_r. reflexivity.
Qed.

Lemma X8_empty_mappings_file_witness :
  api_calls (fst (do_validate (Demo.world_of (Demo.answer [] []))
                    (set_mappings_file "" (Demo.inline "text" "test" "summary"))))
  = [{| req_platform := "text"; req_hostname := None; req_mapping := PNone;
        req_mappings := PNone; req_indexing := PNone;
        req_text_input := PStr "test"; req_json_input := PNone |}].
Proof.
  pose proof (X8_empty_mappings_file (Demo.world_of (Demo.answer [] []))
                (set_mappings_file "" (Demo.inline "text" "test" "summary"))
                [] [] (PStr "test", PNone) [] PNone
                eq_refl eq_refl eq_refl eq_refl) as H.
  unfold do_validate. rewrite H. reflexivity.
Defined.

(** ** The request (USP.py 111-173) *)

Lemma mapping_step_result w ns t m :
  do_validate_mapping w ns = (t, Ret m) ->
  is_None m = true ->
  args.mappings_file ns <> None
  \/ str_in (args.platform ns) builtin_parser_platforms = true.
Proof.
  unfold do_validate_mapping.
  destruct (_load_mapping w ns) as [t0 [v|c|e]]; try discriminate. cbn [bind].
  destruct (args.mappings_file ns) as [p|]; [intros _ _; left; discriminate|].
  destruct (is_None v) eqn:Hv; cbn [andb].
  - destruct (str_in (args.platform ns) builtin_parser_platforms); [auto|discriminate].
  - cbn. intros H. injection H as _ <-. congruence.
Qed.

Lemma mappings_step_result w ns t v :
  do_validate_mappings w ns = (t, Ret v) ->
  (truthy_arg (args.mappings_file ns) = false /\ v = PNone)
  \/ (truthy_arg (args.mappings_file ns) = true /\ is_list v = true).
Proof.
  unfold do_validate_mappings.
  destruct (args.mappings_file ns) as [path|]; cbn [truthy_arg].
  - destruct (negb (String.eqb path "")).
    + destruct (_load_file_content w path true) as [t0 [x|c|e]]; try discriminate.
      cbn [bind]. destruct (is_list x) eqn:Hx; cbn; [|discriminate].
      intros H. injection H as _ <-. auto.
    + intros H. injection H as _ <-. auto.
  - intros H. injection H as _ <-. auto.
Qed.

Lemma indexing_step_result w ns t v :
  do_validate_indexing w ns = (t, Ret v) ->
  (truthy_arg (args.indexing_file ns) = false /\ v = PNone)
  \/ (truthy_arg (args.indexing_file ns) = true /\ is_list v = true).
Proof.
  unfold do_validate_indexing.
  destruct (args.indexing_file ns) as [path|]; cbn [truthy_arg].
  - destruct (negb (String.eqb path "")).
    + destruct (_load_file_content w path true) as [t0 [x|c|e]]; try discriminate.
      cbn [bind]. destruct (is_list x) eqn:Hx; cbn; [|discriminate].
      intros H. injection H as _ <-. auto.
    + intros H. injection H as _ <-. auto.
  - intros H. injection H as _ <-. auto.
Qed.

(** X9: what every call of the service is given.  The platform and the
    hostname are those of the command line, unchanged (no default hostname
    is filled in); mappings is a list when a non-empty mappings file was
    named and None otherwise, and the same for indexing; and a request
    without a mapping comes only from a command line that has a mappings
    file attribute or a platform with a built-in parser. *)
Theorem X9_request_invariants w ns req :
  In (EApiCall req) (fst (do_validate w ns)) ->
  req_platform req = args.platform ns
  /\ req_hostname req = args.hostname ns
  /\ (if truthy_arg (args.mappings_file ns)
      then is_list (req_mappings req) = true else req_mappings req = PNone)
  /\ (if truthy_arg (args.indexing_file ns)
      then is_list (req_indexing req) = true else req_indexing req = PNone)
  /\ (is_None (req_mapping req) = true ->
      args.mappings_file ns <> None
      \/ str_in (args.platform ns) builtin_parser_platforms = true).
Proof.
  intros Hin. destruct (called_with w ns req Hin) as (t & Hreq).
  revert Hreq. unfold do_validate_request.
  destruct (do_validate_mapping w ns) as [t1 [mapping|c|e]] eqn:H1; try discriminate.
  destruct (do_validate_mappings w ns) as [t2 [mappings|c|e]] eqn:H2; try discriminate.
  destruct (do_validate_input w ns) as [t3 [inputs|c|e]]; try discriminate.
  destruct (do_validate_indexing w ns) as [t4 [indexing|c|e]] eqn:H4; try discriminate.
  cbn. intros H. injection H as _ <-. cbn.
  split; [reflexivity|]. split; [reflexivity|]. split; [|split].
  - destruct (mappings_step_result w ns t2 mappings H2) as [(-> & ->) | (-> & ?)]; auto.
  - destruct (indexing_step_result w ns t4 indexing H4) as [(-> & ->) | (-> & ?)]; auto.
  - exact (mapping_step_result w ns t1 mapping H1).
Qed.

Lemma X9_request_invariants_witness :
  req_hostname
    {| req_platform := "cef"; req_hostname := None; req_mapping := PNone;
       req_mappings := PNone; req_indexing := PNone;
       req_text_input := PStr "x"; req_json_input := PNone |}
  = args.hostname (Demo.inline "cef" "x" "summary").
Proof.
  apply (X9_request_invariants (Demo.world_of (Demo.answer [] []))
           (Demo.inline "cef" "x" "summary")).
  cbn. auto.
Defined.

(** X10: a run calls the service at most once: there is no retry, neither
    after an error of the call nor after a response with errors. *)
Theorem X10_at_most_one_call w ns :
  length (api_calls (fst (do_validate w ns))) <= 1.
Proof.
  destruct (request_cases w ns)
    as [(t & req & Hreq & Ht) | [(t & msg & Hreq & Ht & _) | (t & exn & Hreq & Ht)]].
  - destruct (run_after_request w ns t req Hreq) as (t' & o & Hrun & Hcases).
    rewrite Hrun. cbn [fst]. rewrite api_calls_app.
    destruct (quiet_silent t Ht) as (_ & _ & ->). cbn [app].
    destruct Hcases as [-> | [(rendered & -> & Hr) | (e & -> & _ & _)]].
    + cbn. lia.
    + change (api_calls (EApiCall req :: rendered)) with (req :: api_calls rendered).
      destruct (prints_only_streams rendered Hr) as (_ & ->). cbn. lia.
    + cbn. lia.
  - rewrite (request_failed w ns _ 1 Hreq). cbn [fst].
    destruct (reported_streams t msg Ht) as (_ & _ & ->). cbn. lia.
  - rewrite (request_raised w ns _ _ Hreq). cbn [fst].
    destruct (quiet_silent t Ht) as (_ & _ & ->). cbn. lia.
Qed.

(** ** The ways a run can end *)

Lemma run_cases w ns : run_case w ns.
Proof.
  destruct (request_cases w ns)
    as [(t & req & Hreq & Ht) | [(t & msg & Hreq & Ht & _) | (t & exn & Hreq & Ht)]].
  - destruct (Manager w) as [[]|e] eqn:HM.
    + destruct (validateUSP w req) as [r|e] eqn:Hv.
      * apply (run_answered w ns t req r Ht Hreq HM Hv).
        rewrite (do_validate_answered w ns t req r Hreq HM Hv).
        destruct (do_validate_render w ns r); reflexivity.
      * apply (run_api_error w ns t req e Ht Hreq HM Hv).
        unfold do_validate, do_validate_call. rewrite Hreq, HM. cbn [bind].
        rewrite Hv. reflexivity.
    + apply (run_no_manager w ns t req e Ht Hreq HM).
      unfold do_validate, do_validate_call. rewrite Hreq, HM. cbn.
      now rewrite app_nil_r.
  - apply (run_stopped w ns t msg Ht Hreq). now apply request_failed.
  - apply (run_raised w ns t exn Ht Hreq). now apply request_raised.
Qed.

Lemma show_event_outcome w i event :
  snd (show_event w i event) = Ret tt \/ snd (show_event w i event) = Raise "AttributeError".
Proof.
  destruct (event_lines w i event) as [ls|] eqn:H.
  - left. now rewrite (show_event_shaped w i event ls H).
  - right. destruct (show_event_misshaped w i event H) as (t & ->). reflexivity.
Qed.

Lemma show_events_outcome w events : forall i,
  snd (show_events w i events) = Ret tt
  \/ snd (show_events w i events) = Raise "AttributeError".
Proof.
  induction events as [|event rest IH]; intros i; [left; reflexivity|].
  cbn [show_events]. destruct (show_event_outcome w i event) as [H|H];
    destruct (show_event w i event) as [t o]; cbn [snd] in H; subst o; cbn [bind].
  - destruct (IH (S i)) as [H'|H']; destruct (show_events w (S i) rest) as [t' o'];
      cbn [snd] in *; subst o'; auto.
  - auto.
Qed.

Lemma render_outcome w ns r :
  snd (do_validate_render w ns r) = Exit 1
  \/ (get_list (resp_errors r) = [] /\ get_list (resp_results r) <> []
      /\ (snd (do_validate_render w ns r) = Ret tt
          \/ snd (do_validate_render w ns r) = Raise "AttributeError")).
Proof.
  destruct (get_list (resp_errors r)) as [|e errs] eqn:He.
  - destruct (get_list (resp_results r)) as [|x rest] eqn:Hr.
    + left. now rewrite (render_empty_result w ns r He Hr).
    + right. split; [reflexivity|]. split; [discriminate|].
      rewrite (render_success w ns r (x :: rest) He Hr ltac:(discriminate)).
      destruct (String.eqb (args.output_format ns) "json"); [left; reflexivity|].
      destruct (String.eqb (args.output_format ns) "yaml"); [left; reflexivity|].
      destruct (show_events_outcome w (x :: rest) 1) as [H|H];
        destruct (show_events w 1 (x :: rest)) as [t o]; cbn [snd] in *; subst o; auto.
  - left. rewrite (render_hard_failure w ns r); [reflexivity|]. rewrite He. discriminate.
Qed.

(** X11: the status of a run is 0 or 1, and it is 0 only when the script
    runs to its end after the service has answered with no errors and at
    least one result.  Every failure of a check, every error of the call,
    every response with errors or without results, and every exception
    gives 1. *)
Theorem X11_exit_status w ns :
  (exit_code (snd (do_validate w ns)) = 0 \/ exit_code (snd (do_validate w ns)) = 1)%Z
  /\ (exit_code (snd (do_validate w ns)) = 0%Z ->
      snd (do_validate w ns) = Ret tt
      /\ exists t req r,
           do_validate_request w ns = (t, Ret req)
           /\ validateUSP w req = Ok r
           /\ get_list (resp_errors r) = []
           /\ get_list (resp_results r) <> []).
Proof.
  destruct (run_cases w ns) as [t msg _ _ -> | t exn _ _ -> | t req e _ _ _ ->
                               | t req e _ _ _ _ -> | t req r _ Hreq _ Hv ->];
    cbn [snd exit_code]; try (split; [auto | discriminate]).
  destruct (render_outcome w ns r) as [-> | (He & Hr & [-> | ->])]; cbn [exit_code];
    try (split; [auto | discriminate]).
  split; [auto|]. intros _. split; [reflexivity|]. eauto 8.
Qed.

Lemma X11_exit_status_witness :
  snd (do_validate (Demo.world_of (Demo.answer [] [Demo.event_ab]))
         (Demo.inline "cef" "x" "summary")) = Ret tt.
Proof.
  apply (X11_exit_status (Demo.world_of (Demo.answer [] [Demo.event_ab]))
           (Demo.inline "cef" "x" "summary")).
  reflexivity.
Defined.

(** X12: nothing reaches stdout before the service has answered: a run
    that prints anything has assembled a request and received a response
    to it.  Failures of the checks and of the call show on stderr only. *)
Theorem X12_stdout_after_answer w ns :
  stdout_of (fst (do_validate w ns)) <> [] ->
  exists t req r,
    do_validate_request w ns = (t, Ret req)
    /\ In (EApiCall req) (fst (do_validate w ns))
    /\ validateUSP w req = Ok r.
Proof.
  destruct (run_cases w ns) as [t msg Ht _ -> | t exn Ht _ -> | t req e Ht _ _ ->
                               | t req e Ht _ _ _ -> | t req r Ht Hreq _ Hv ->];
    cbn [fst]; intros Hout.
  - destruct (reported_streams t msg Ht) as (H & _). congruence.
  - destruct (quiet_silent t Ht) as (H & _). congruence.
  - destruct (quiet_silent t Ht) as (H & _). congruence.
  - rewrite stdout_of_app in Hout. destruct (quiet_silent t Ht) as (H & _).
    rewrite H in Hout. now destruct Hout.
  - exists t, req, r. repeat split; try assumption.
    apply in_or_app. right. now left.
Qed.

Lemma X12_stdout_after_answer_witness :
  exists t req r,
    do_validate_request (Demo.world_of (Demo.answer [] []))
      (Demo.inline "cef" "x" "summary") = (t, Ret req)
    /\ In (EApiCall req)
         (fst (do_validate (Demo.world_of (Demo.answer [] []))
                 (Demo.inline "cef" "x" "summary")))
    /\ validateUSP (Demo.world_of (Demo.answer [] [])) req = Ok r.
Proof.
  apply X12_stdout_after_answer. discriminate.
Defined.

(** X13: the constructor of the Manager is called outside the [try].  When
    it raises, after all checks have passed, the exception escapes: the run
    ends in that exception, with nothing written to either stream and the
    service not called.  It is not reported as an API error. *)
Theorem X13_manager_failure w ns t req e :
  do_validate_request w ns = (t, Ret req) ->
  Manager w = Err e ->
  do_validate w ns = (t, Raise e)
  /\ stdout_of t = [] /\ stderr_of t = [] /\ api_calls t = [].
Proof.
  intros Hreq HM. split.
  - unfold do_validate, do_validate_call. rewrite Hreq, HM. cbn. now rewrite app_nil_r.
  - exact (quiet_silent t (request_quiet w ns t req Hreq)).
Qed.

Lemma X13_manager_failure_witness :
  do_validate (Demo.no_manager (Demo.answer [] [Demo.event_ab]))
    (Demo.inline "cef" "x" "summary")
  = ([], Raise "No organization ID specified").
Proof.
  apply (X13_manager_failure (Demo.no_manager (Demo.answer [] [Demo.event_ab]))
           (Demo.inline "cef" "x" "summary") []
           {| req_platform := "cef"; req_hostname := None; req_mapping := PNone;
              req_mappings := PNone; req_indexing := PNone;
              req_text_input := PStr "x"; req_json_input := PNone |});
    reflexivity.
Defined.

(** ** The files a run reads *)

Lemma trace_all_bind {A B} P (m : M A) (k : A -> M B) :
  trace_all P m -> (forall a, trace_all P (k a)) -> trace_all P (bind m k).
Proof.
  unfold trace_all. destruct m as [t [a|c|x]]; cbn [bind fst]; intros Hm Hk; auto.
  specialize (Hk a). destruct (k a) as [t' o]. cbn [fst] in *.
  intros e He. apply in_app_or in He. destruct He; auto.
Qed.

Lemma trace_all_nil {A} P (o : outcome A) : trace_all P ([], o).
Proof. intros e []. Qed.

Lemma trace_all_emit P e : P e -> trace_all P (emit e).
Proof. intros He x [<-|[]]. exact He. Qed.

Lemma trace_all_reportError {A} ns msg : trace_all (reads_named ns) (@reportError A msg).
Proof. intros e [<-|[]]. exact I. Qed.

Lemma trace_all_load_file ns w path as_json :
  In (Some path) (named_files ns) ->
  trace_all (reads_named ns) (_load_file_content w path as_json).
Proof.
  intros Hp. unfold _load_file_content.
  destruct (fs w path) as [e|e|raw]; try apply trace_all_reportError.
  apply trace_all_bind; [now apply trace_all_emit|]. intros _.
  destruct (utf8_decode w raw) as [content|e]; [|apply trace_all_reportError].
  destruct as_json; [|apply trace_all_nil].
  destruct (json_loads w content);
    [apply trace_all_nil | apply trace_all_reportError | apply trace_all_reportError].
Qed.

Lemma trace_all_prints {A} ns (m : M A) : prints_only m -> trace_all (reads_named ns) m.
Proof.
  unfold prints_only, trace_all. intros H e He.
  rewrite forallb_forall in H. specialize (H e He). destruct e; try discriminate. exact I.
Qed.

Lemma trace_all_request ns w : trace_all (reads_named ns) (do_validate_request w ns).
Proof.
  unfold do_validate_request, do_validate_mapping, _load_mapping, do_validate_mappings,
    do_validate_input, do_validate_indexing, named_files.
  repeat first
    [ apply trace_all_nil
    | apply trace_all_reportError
    | apply trace_all_load_file; cbn; now auto
    | apply trace_all_emit; cbn; now auto
    | apply trace_all_bind; [|intros ?]
    | match goal with
      | |- trace_all _ (let (_, _) := ?p in _) => destruct p
      | |- trace_all _ (match args.mapping_file ns with _ => _ end) =>
          destruct (args.mapping_file ns) eqn:?
      | |- trace_all _ (match args.mappings_file ns with _ => _ end) =>
          destruct (args.mappings_file ns) eqn:?
      | |- trace_all _ (match args.input_file ns with _ => _ end) =>
          destruct (args.input_file ns) eqn:?
      | |- trace_all _ (match args.indexing_file ns with _ => _ end) =>
          destruct (args.indexing_file ns) eqn:?
      | |- trace_all _ (match args.mapping ns with _ => _ end) =>
          destruct (args.mapping ns) eqn:?
      | |- trace_all _ (match args.input ns with _ => _ end) =>
          destruct (args.input ns) eqn:?
      | |- trace_all _ (if ?b then _ else _) => destruct b
      | |- trace_all _ (match ?x with _ => _ end) => destruct x
      end ].
Qed.

(** X14: a run reads no file but those the command line names: every path
    it opens is the value of --mapping-file, --mappings-file, --input-file
    or --indexing-file. *)
Theorem X14_reads_named_files w ns path :
  In path (opened (fst (do_validate w ns))) ->
  In (Some path) (named_files ns).
Proof.
  intros Hin.
  assert (H : trace_all (reads_named ns) (do_validate w ns)).
  { unfold do_validate. apply trace_all_bind; [apply trace_all_request|]. intros req.
    apply trace_all_bind.
    - unfold do_validate_call. destruct (Manager w); [|apply trace_all_nil].
      apply trace_all_bind; [now apply trace_all_emit|]. intros _.
      destruct (validateUSP w req); [apply trace_all_nil | apply trace_all_reportError].
    - intros r. apply trace_all_prints, prints_only_render. }
  unfold opened in Hin. apply in_flat_map in Hin. destruct Hin as (e & He & Hp).
  specialize (H e He). destruct e; cbn in Hp; try tauto.
  destruct Hp as [<-|[]]. exact H.
Qed.

Lemma X14_reads_named_files_witness :
  In (Some "sample.log") (named_files (Demo.both "{}" "x")).
Proof.
  apply (X14_reads_named_files (Demo.world_of (Demo.answer [] [])) (Demo.both "{}" "x")).
  cbn. auto.
Defined.

(** ** The renderer (USP.py 177-227) *)

(** X15: in json and in yaml mode a response with no errors and at least
    one result always ends with status 0, whatever the shape of the events:
    the run prints the header, the count and one dump of the whole list. *)
Theorem X15_dump_modes_succeed w ns t req r :
  do_validate_request w ns = (t, Ret req) ->
  Manager w = Ok tt ->
  validateUSP w req = Ok r ->
  get_list (resp_errors r) = [] ->
  get_list (resp_results r) <> [] ->
  args.output_format ns = "json" \/ args.output_format ns = "yaml" ->
  let results := get_list (resp_results r) in
  let dump := if String.eqb (args.output_format ns) "json"
              then json_dumps w (PList results)
              else yaml_safe_dump w (PList results) in
  do_validate w ns =
    (t +++ [EApiCall req;
            EStdout ("VALIDATION SUCCESSFUL" ++ nl ++ nl);
            EStdout (("Parsed " ++ str_of_nat (length results) ++ " event(s):" ++ nl) ++ nl);
            EStdout (dump ++ nl)],
     Ret tt)
  /\ exit_code (snd (do_validate w ns)) = 0%Z.
Proof.
  intros Hreq HM Hv He Hr Hfmt results dump.
  assert (Hbody : (if String.eqb (args.output_format ns) "json" then
                     Some [json_dumps w (PList results) ++ nl]
                   else if String.eqb (args.output_format ns) "yaml" then
                     Some [yaml_safe_dump w (PList results) ++ nl]
                   else events_lines w 1 results) = Some [dump ++ nl]).
  { subst dump. destruct Hfmt as [-> | ->]; reflexivity. }
  destruct (success_rendered w ns t req r [dump ++ nl] Hreq HM Hv He Hr Hbody)
    as (Hrun & _ & _ & Hcode).
  split; [exact Hrun | exact Hcode].
Qed.

Lemma X15_dump_modes_succeed_witness :
  exit_code (snd (do_validate (Demo.world_of (Demo.answer [] [Demo.event_atom]))
                    (Demo.inline "cef" "x" "json"))) = 0%Z.
Proof.
  apply (X15_dump_modes_succeed (Demo.world_of (Demo.answer [] [Demo.event_atom]))
           (Demo.inline "cef" "x" "json") []
           {| req_platform := "cef"; req_hostname := None; req_mapping := PNone;
              req_mappings := PNone; req_indexing := PNone;
              req_text_input := PStr "x"; req_json_input := PNone |}
           {| resp_errors := Some []; resp_results := Some [Demo.event_atom] |});
    try reflexivity; [discriminate | now left].
Defined.

Lemma event_lines_summary_ok w i event :
  summary_ok event = true <-> exists ls, event_lines w i event = Some ls.
Proof.
  unfold summary_ok, event_lines, hostname_lines.
  destruct event as [| | | | |l|d];
    try (split; [discriminate | intros (ls & H); discriminate]).
  destruct (truthy (dict_get d "routing" (PDict []))) eqn:Hr; cbn [negb orb].
  - destruct (dict_get d "routing" (PDict [])) as [| | | | |l|rd]; cbn [as_dict andb];
      try (split; [discriminate | intros (ls & H); discriminate]).
    destruct (dict_get rd "this" (PDict [])) as [| | | | |l|td]; cbn [as_dict is_dict andb];
      try (split; [discriminate | intros (ls & H); discriminate]).
    destruct (dict_get d "event" (PDict d)) as [| | | | |l|fields]; cbn [as_dict is_dict];
      try (split; [discriminate | intros (ls & H); discriminate]).
    split; [intros _; eauto | reflexivity].
  - destruct (dict_get d "event" (PDict d)) as [| | | | |l|fields];
      cbn [as_dict is_dict andb];
      try (split; [discriminate | intros (ls & H); discriminate]).
    split; [intros _; eauto | reflexivity].
Qed.

(** X16: the summary of one event either runs to its end or raises
    AttributeError, and it runs to its end exactly for the events of
    [summary_ok]: an event that is not an object, a truthy [routing] that
    is not an object, a [routing.this] that is not an object and an
    [event] that is not an object each end the run in the exception. *)
Theorem X16_summary_raises_iff w i event :
  (summary_ok event = true <-> snd (show_event w i event) = Ret tt)
  /\ (summary_ok event = false <-> snd (show_event w i event) = Raise "AttributeError").
Proof.
  destruct (event_lines w i event) as [ls|] eqn:Hl.
  - assert (Hok : summary_ok event = true)
      by (apply (event_lines_summary_ok w i); eauto).
    rewrite (show_event_shaped w i event ls Hl), Hok. cbn [snd].
    split; split; auto; discriminate.
  - assert (Hok : summary_ok event = false).
    { destruct (summary_ok event) eqn:E; [|reflexivity].
      apply (event_lines_summary_ok w i) in E. destruct E as (ls & E). congruence. }
    destruct (show_event_misshaped w i event Hl) as (t & ->). rewrite Hok. cbn [snd].
    split; split; auto; discriminate.
Qed.

Lemma dict_get_has_key d key a b :
  has_key d key = true -> dict_get d key a = dict_get d key b.
Proof.
  induction d as [|[k v] d IH]; cbn; [discriminate|].
  destruct (String.eqb k key); cbn; auto.
Qed.

Lemma dict_get_no_key d key a : has_key d key = false -> dict_get d key a = a.
Proof.
  induction d as [|[k v] d IH]; cbn; [reflexivity|].
  destruct (String.eqb k key); cbn; [discriminate | auto].
Qed.

Lemma dict_get_chosen rd td :
  dict_get rd "hostname" (dict_get td "hostname" (PStr "")) = chosen_hostname rd td.
Proof.
  unfold chosen_hostname. destruct (has_key rd "hostname") eqn:H.
  - now apply dict_get_has_key.
  - now apply dict_get_no_key.
Qed.

(** X17: which hostname the summary shows.  With [routing] a non-empty
    object and [routing.this] an object or missing, the value looked at is
    the hostname entry of [routing] whenever [routing] has that key, and
    the one of [routing.this] only when it has not; the line is printed
    when that value is truthy.  So a [routing.hostname] that is there but
    empty suppresses the line: the fallback is not consulted. *)
Theorem X17_hostname_choice w i d rd td fields :
  dict_get d "routing" (PDict []) = PDict rd ->
  rd <> [] ->
  dict_get rd "this" (PDict []) = PDict td ->
  dict_get d "event" (PDict d) = PDict fields ->
  show_event w i (PDict d) =
    (map EStdout
       ([("Event " ++ str_of_nat i ++ ":") ++ nl]
        +++ (if truthy (chosen_hostname rd td)
             then [("  hostname: " ++ py_str w (chosen_hostname rd td)) ++ nl]
             else [])
        +++ field_lines w fields +++ [nl]),
     Ret tt).
Proof.
  intros Hr Hne Ht He. apply show_event_shaped.
  unfold event_lines, hostname_lines. rewrite Hr, He.
  destruct rd as [|kv rd']; [congruence|]. cbn [truthy as_dict].
  rewrite Ht. cbn [as_dict]. rewrite dict_get_chosen. reflexivity.
Qed.

Lemma X17_hostname_choice_witness :
  show_event (Demo.world_of (Demo.answer [] [])) 1
    (PDict [("routing", PDict [("hostname", PStr "");
                               ("this", PDict [("hostname", PStr "inner")])]);
            ("event", PDict [("a", PInt 1)])])
  = (map EStdout ["Event 1:" ++ nl; "  a: 1" ++ nl; nl], Ret tt).
Proof.
  apply (X17_hostname_choice (Demo.world_of (Demo.answer [] [])) 1 _
           [("hostname", PStr ""); ("this", PDict [("hostname", PStr "inner")])]
           [("hostname", PStr "inner")] [("a", PInt 1)]);
    [reflexivity | discriminate | reflexivity | reflexivity].
Defined.

(** X18: [routing] is tested for truth before it is used.  A falsy
    [routing] of any type (missing, null, an empty object, an empty string,
    zero) is passed over and the fields are shown; a truthy [routing] that
    is not an object ends the summary in AttributeError right after the
    index line. *)
Theorem X18_routing_truth w i d :
  (truthy (dict_get d "routing" (PDict [])) = false ->
   forall fields,
     dict_get d "event" (PDict d) = PDict fields ->
     show_event w i (PDict d) =
       (map EStdout ([("Event " ++ str_of_nat i ++ ":") ++ nl]
                     +++ field_lines w fields +++ [nl]),
        Ret tt))
  /\ (truthy (dict_get d "routing" (PDict [])) = true ->
      is_dict (dict_get d "routing" (PDict [])) = false ->
      show_event w i (PDict d) =
        ([EStdout (("Event " ++ str_of_nat i ++ ":") ++ nl)], Raise "AttributeError")).
Proof.
  split.
  - intros Hr fields He. apply show_event_shaped.
    unfold event_lines, hostname_lines. rewrite Hr, He. reflexivity.
  - intros Hr Hd. unfold show_event, print, emit. cbn [bind py_get ret].
    rewrite Hr. destruct (dict_get d "routing" (PDict [])); try discriminate; reflexivity.
Qed.

Lemma X18_routing_truth_witness :
  show_event (Demo.world_of (Demo.answer [] [])) 2
    (PDict [("routing", PNone); ("msg", PStr "hello")])
  = (map EStdout ["Event 2:" ++ nl; "  msg: hello" ++ nl; nl], Ret tt)
  /\ show_event (Demo.world_of (Demo.answer [] [])) 2
       (PDict [("routing", PStr "edge-7"); ("msg", PStr "hello")])
     = ([EStdout ("Event 2:" ++ nl)], Raise "AttributeError").
Proof.
  split.
  - exact (proj1 (X18_routing_truth (Demo.world_of (Demo.answer [] [])) 2
                    [("routing", PNone); ("msg", PStr "hello")])
             eq_refl [("routing", PNone); ("msg", PStr "hello")] eq_refl).
  - apply (proj2 (X18_routing_truth (Demo.world_of (Demo.answer [] [])) 2
                    [("routing", PStr "edge-7"); ("msg", PStr "hello")]));
      reflexivity.
Defined.

(** X19: the output format matters to a success only.  A response with
    errors, or with no results, is rendered the same way under every
    command line (also with [-o json] it is the plain text diagnostic) and
    ends with status 1; and on a success every format other than the
    strings json and yaml is rendered as the summary. *)
Theorem X19_format_only_on_success w ns ns' r :
  (get_list (resp_errors r) <> [] \/ get_list (resp_results r) = [] ->
   do_validate_render w ns r = do_validate_render w ns' r
   /\ snd (do_validate_render w ns r) = Exit 1)
  /\ (args.output_format ns <> "json" -> args.output_format ns <> "yaml" ->
      args.output_format ns' = "summary" ->
      do_validate_render w ns r = do_validate_render w ns' r).
Proof.
  split.
  - intros [He | Hr].
    + rewrite (render_hard_failure w ns r He), (render_hard_failure w ns' r He).
      split; reflexivity.
    + destruct (get_list (resp_errors r)) as [|e errs] eqn:He.
      * rewrite (render_empty_result w ns r He Hr), (render_empty_result w ns' r He Hr).
        split; reflexivity.
      * assert (He' : get_list (resp_errors r) <> []) by (rewrite He; discriminate).
        rewrite (render_hard_failure w ns r He'), (render_hard_failure w ns' r He').
        split; reflexivity.
  - intros Hj Hy Hs. unfold do_validate_render. rewrite Hs.
    apply String.eqb_neq in Hj, Hy. rewrite Hj, Hy. reflexivity.
Qed.

Lemma X19_format_only_on_success_witness :
  do_validate_render (Demo.world_of (Demo.answer [] []))
    (Demo.inline "cef" "x" "json") {| resp_errors := Some []; resp_results := None |}
  = do_validate_render (Demo.world_of (Demo.answer [] []))
      (Demo.inline "cef" "x" "summary") {| resp_errors := Some []; resp_results := None |}.
Proof.
  apply (proj1 (X19_format_only_on_success (Demo.world_of (Demo.answer [] []))
                  (Demo.inline "cef" "x" "json") (Demo.inline "cef" "x" "summary")
                  {| resp_errors := Some []; resp_results := None |})).
  right. reflexivity.
Defined.

(** ** The argument parser (USP.py 246-348) *)

Lemma optionals_keep_choices :
  forall name a, In (name, a) optionals -> keeps_choices a.
Proof.
  intros name a Hin. unfold optionals in Hin. cbn in Hin.
  repeat (destruct Hin as [Hin|Hin];
          [injection Hin as <- <-; cbn [keeps_choices]; intros;
           try match goal with
               | H : str_in _ _ = true |- _ => apply str_in_In in H
               end;
           unfold choices_ok in *; cbn in *; tauto|]).
  destruct Hin.
Qed.

Lemma find_option_In tok table a :
  find_option tok table = Some a -> exists name, In (name, a) table.
Proof.
  induction table as [|[name b] table IH]; cbn; [discriminate|].
  destruct (String.eqb name tok).
  - intros H. injection H as <-. eauto.
  - intros H. destruct (IH H) as (n & Hn). eauto.
Qed.

Lemma parse_loop_choices n : forall argv act extra ns0 ns,
  length argv <= n ->
  choices_ok ns0 ->
  parse_loop argv act extra ns0 = Parsed ns ->
  choices_ok ns.
Proof.
  induction n as [|n IH]; intros argv act extra ns0 ns Hlen Hok.
  - destruct argv; [|cbn in Hlen; lia]. cbn.
    destruct act; [|discriminate]. destruct extra; [discriminate|].
    intros H. injection H as <-. exact Hok.
  - destruct argv as [|tok rest].
    + cbn. destruct act; [|discriminate]. destruct extra; [discriminate|].
      intros H. injection H as <-. exact Hok.
    + cbn [parse_loop]. cbn [length] in Hlen.
      destruct (String.eqb tok "-h" || String.eqb tok "--help"); [discriminate|].
      destruct (is_dashed tok).
      * destruct (find_option tok optionals) as [a|] eqn:Hfind; [|discriminate].
        destruct (find_option_In _ _ _ Hfind) as (name & Hin).
        pose proof (optionals_keep_choices name a Hin) as Hkeep.
        destruct a as [set | choices set]; cbn in Hkeep.
        -- apply IH; [lia | auto].
        -- destruct rest as [|value rest']; [discriminate|].
           destruct (is_dashed value); [discriminate|]. cbn [length] in Hlen.
           destruct choices as [allowed|].
           ++ destruct (str_in value allowed) eqn:Hv; [|discriminate].
              apply IH; [lia | auto].
           ++ apply IH; [lia | auto].
      * destruct act; apply IH; auto; lia.
Qed.

(** X20: whatever argv the parser accepts, the platform it stores is one of
    text, json, cef, gcp, aws and the output format one of summary, json,
    yaml, also when the options are repeated or left out: [do_validate] is
    never handed any other value. *)
Theorem X20_parsed_choices argv ns :
  parse_args argv = Parsed ns ->
  In (args.platform ns) ["text"; "json"; "cef"; "gcp"; "aws"]
  /\ In (args.output_format ns) ["summary"; "json"; "yaml"].
Proof.
  intros H. apply (parse_loop_choices (length argv) argv None false defaults ns);
    [lia | | exact H].
  split; cbn; auto.
Qed.

Lemma X20_parsed_choices_witness :
  In "gcp" ["text"; "json"; "cef"; "gcp"; "aws"]
  /\ In "yaml" ["summary"; "json"; "yaml"].
Proof.
  exact (X20_parsed_choices ["-p"; "cef"; "validate"; "-o"; "yaml"; "--platform"; "gcp"]
           _ eq_refl).
Defined.

Lemma long_form_cases tok :
  long_form tok = tok
  \/ (tok = "-p" /\ long_form tok = "--platform")
  \/ (tok = "-m" /\ long_form tok = "--mapping")
  \/ (tok = "-f" /\ long_form tok = "--mapping-file")
  \/ (tok = "-i" /\ long_form tok = "--input")
  \/ (tok = "-o" /\ long_form tok = "--output-format").
Proof.
  unfold long_form.
  destruct (String.eqb_spec tok "-p") as [->|_]; [tauto|].
  destruct (String.eqb_spec tok "-m") as [->|_]; [tauto|].
  destruct (String.eqb_spec tok "-f") as [->|_]; [tauto|].
  destruct (String.eqb_spec tok "-i") as [->|_]; [tauto|].
  destruct (String.eqb_spec tok "-o") as [->|_]; tauto.
Qed.

Lemma long_form_option tok :
  find_option (long_form tok) optionals = find_option tok optionals
  /\ is_dashed (long_form tok) = is_dashed tok
  /\ String.eqb (long_form tok) "-h" = String.eqb tok "-h"
  /\ String.eqb (long_form tok) "--help" = String.eqb tok "--help".
Proof.
  destruct (long_form_cases tok)
    as [-> | [(-> & ->) | [(-> & ->) | [(-> & ->) | [(-> & ->) | (-> & ->)]]]]];
    repeat split; reflexivity.
Qed.

Lemma long_form_plain tok : is_dashed tok = false -> long_form tok = tok.
Proof.
  destruct (long_form_cases tok)
    as [-> | [(-> & ->) | [(-> & ->) | [(-> & ->) | [(-> & ->) | (-> & ->)]]]]];
    auto; discriminate.
Qed.

Lemma parse_loop_long_form n : forall argv act extra ns0,
  length argv <= n ->
  parse_loop (map long_form argv) act extra ns0 = parse_loop argv act extra ns0.
Proof.
  induction n as [|n IH]; intros argv act extra ns0 Hlen.
  - destruct argv; [reflexivity | cbn in Hlen; lia].
  - destruct argv as [|tok rest]; [reflexivity|].
    cbn [map parse_loop]. cbn [length] in Hlen.
    destruct (long_form_option tok) as (-> & -> & -> & ->).
    destruct (String.eqb tok "-h" || String.eqb tok "--help"); [reflexivity|].
    destruct (is_dashed tok) eqn:Hd.
    + destruct (find_option tok optionals) as [[set | choices set]|]; [| |reflexivity].
      * apply IH. lia.
      * destruct rest as [|value rest']; [reflexivity|]. cbn [map length] in *.
        destruct (long_form_option value) as (_ & -> & _).
        destruct (is_dashed value) eqn:Hv; [reflexivity|].
        rewrite (long_form_plain value Hv).
        destruct choices as [allowed|].
        -- destruct (str_in value allowed); [apply IH; lia | reflexivity].
        -- apply IH. lia.
    + rewrite (long_form_plain tok Hd). destruct act; apply IH; lia.
Qed.

(** X21: each short option string stands for its long one: writing
    [--platform], [--mapping], [--mapping-file], [--input] and
    [--output-format] for [-p], [-m], [-f], [-i] and [-o] throughout an
    argv changes nothing in what the parser makes of it. *)
Theorem X21_short_options argv :
  parse_args (map long_form argv) = parse_args argv.
Proof. apply (parse_loop_long_form (length argv)). lia. Qed.

Lemma set_action_ignored w a ns :
  do_validate w (set_action a ns) = do_validate w ns.
Proof. reflexivity. Qed.

(** The parser stores the positional as it is spelled and looks at it no
    further: with another word in its place the result is the same, but for
    the attribute [action]. *)
Lemma parse_loop_action n a b : forall argv extra ns0,
  length argv <= n ->
  parse_loop argv (Some a) extra ns0 = with_action a (parse_loop argv (Some b) extra ns0).
Proof.
  induction n as [|n IH]; intros argv extra ns0 Hlen.
  - destruct argv; [|cbn in Hlen; lia]. cbn. destruct extra; reflexivity.
  - destruct argv as [|tok rest]; [cbn; destruct extra; reflexivity|].
    cbn [parse_loop]. cbn [length] in Hlen.
    destruct (String.eqb tok "-h" || String.eqb tok "--help"); [reflexivity|].
    destruct (is_dashed tok).
    + destruct (find_option tok optionals) as [[set | choices set]|]; [| |reflexivity].
      * apply IH. lia.
      * destruct rest as [|value rest']; [reflexivity|].
        destruct (is_dashed value); [reflexivity|]. cbn [length] in Hlen.
        destruct choices as [allowed|].
        -- destruct (str_in value allowed); [|reflexivity]. apply IH. lia.
        -- apply IH. lia.
    + apply IH. lia.
Qed.

Lemma not_dashed_not_help a :
  is_dashed a = false -> String.eqb a "-h" || String.eqb a "--help" = false.
Proof.
  intros Hd.
  destruct (String.eqb_spec a "-h") as [->|_]; [discriminate|].
  destruct (String.eqb_spec a "--help") as [->|_]; [discriminate|].
  reflexivity.
Qed.

Lemma parse_action_first a rest :
  is_dashed a = false ->
  parse_args (a :: rest) = with_action a (parse_args ("validate" :: rest)).
Proof.
  intros Hd. unfold parse_args. cbn [parse_loop].
  rewrite (not_dashed_not_help a Hd), Hd.
  change (String.eqb "validate" "-h" || String.eqb "validate" "--help") with false.
  change (is_dashed "validate") with false. cbn iota.
  apply (parse_loop_action (length rest)). lia.
Qed.

(** X22: the action is looked up in lower case and is not checked by the
    parser.  On every command line the parser accepts, with whatever
    options, the run is [do_validate] on the parsed arguments when the
    action is a spelling of validate in upper and lower case, and
    [do_validate] never looks at the action; for any other word the lookup
    ends in a KeyError that nobody catches, with nothing written by the
    script and the service not called.  With the action in front, a
    spelling of validate parses as [validate] does but for the attribute
    [action], and the run is the same as with [validate], options
    included. *)
Theorem X22_action_dispatch w :
  (forall argv ns,
     parse_args argv = Parsed ns ->
     (lower (args.action ns) = "validate" ->
      main w argv = Some (do_validate w ns))
     /\ (lower (args.action ns) <> "validate" ->
         main w argv = Some ([], Raise "KeyError")))
  /\ (forall a ns, do_validate w (set_action a ns) = do_validate w ns)
  /\ (forall a rest,
        is_dashed a = false ->
        parse_args (a :: rest) = with_action a (parse_args ("validate" :: rest)))
  /\ (forall a rest,
        is_dashed a = false ->
        lower a = "validate" ->
        parse_args ("validate" :: rest) <> UsageError ->
        main w (a :: rest) = main w ("validate" :: rest))
  /\ (forall a rest ns,
        is_dashed a = false ->
        lower a <> "validate" ->
        parse_args ("validate" :: rest) = Parsed ns ->
        main w (a :: rest) = Some ([], Raise "KeyError")).
Proof.
  split; [|split; [|split; [|split]]].
  - intros argv ns Hparse. unfold main. rewrite Hparse. split.
    + intros ->. reflexivity.
    + intros Hne. apply String.eqb_neq in Hne. rewrite Hne. reflexivity.
  - reflexivity.
  - apply parse_action_first.
  - intros a rest Hd Hlow Hok. unfold main.
    rewrite (parse_action_first a rest Hd).
    pose proof (parse_action_first "validate" rest eq_refl) as Hself.
    destruct (parse_args ("validate" :: rest)) as [ns| | |];
      [|now destruct Hok|reflexivity|reflexivity].
    cbn [with_action] in *. injection Hself as Hns.
    cbn [args.action set_action]. rewrite Hlow.
    rewrite Hns. cbn [args.action set_action]. reflexivity.
  - intros a rest ns Hd Hne Hparse. unfold main.
    rewrite (parse_action_first a rest Hd), Hparse. cbn [with_action args.action set_action].
    apply String.eqb_neq in Hne. rewrite Hne. reflexivity.
Qed.

Lemma X22_action_dispatch_witness :
  main (Demo.world_of (Demo.answer [] [])) ["Validate"; "-p"; "cef"; "-i"; "x"]
  = main (Demo.world_of (Demo.answer [] [])) ["validate"; "-p"; "cef"; "-i"; "x"]
  /\ main (Demo.world_of (Demo.answer [] [])) ["-p"; "cef"; "VALIDATE"; "-i"; "x"]
     = Some (do_validate (Demo.world_of (Demo.answer [] []))
               (set_action "VALIDATE" (Demo.inline "cef" "x" "summary")))
  /\ main (Demo.world_of (Demo.answer [] [])) ["deploy"; "-p"; "cef"; "-i"; "x"]
     = Some ([], Raise "KeyError").
Proof.
  destruct (X22_action_dispatch (Demo.world_of (Demo.answer [] [])))
    as (Hany & _ & _ & Hsame & Hother).
  split; [|split].
  - apply Hsame; [reflexivity | reflexivity | discriminate].
  - apply (Hany ["-p"; "cef"; "VALIDATE"; "-i"; "x"]); reflexivity.
  - apply (Hother "deploy" ["-p"; "cef"; "-i"; "x"]
             (set_action "validate" (Demo.inline "cef" "x" "summary")));
      [reflexivity | discriminate | reflexivity].
Defined.

(** ** The input resolver (USP.py 130-153) *)

(** X23: what counts as no input.  An inline input that is the empty
    string is no input, and without an input file the run stops on the
    input requirement; but an input file is taken as it is: in text mode
    its decoded content, the empty content too, becomes the text input and
    the step returns. *)
Theorem X23_empty_input w ns :
  (In (args.input_file ns) [None; Some ""] ->
   In (args.input ns) [None; Some ""] ->
   do_validate_input w ns =
     ([EStderr ("Either --input or --input-file is required" ++ nl)], Exit 1))
  /\ (forall path raw content,
        args.input_file ns = Some path -> path <> "" ->
        args.json_input ns = false ->
        fs w path = Bytes raw -> utf8_decode w raw = Ok content ->
        do_validate_input w ns = ([EOpen path], Ret (PStr content, PNone))).
Proof.
  split.
  - intros Hf Hi. apply input_absent; now apply truthy_arg_blank.
  - intros path raw content Hp Hne Hj Hfs Hdec. unfold do_validate_input.
    rewrite Hp, (truthy_arg_nonempty path Hne), Hj. unfold _load_file_content.
    rewrite Hfs, Hdec. reflexivity.
Qed.

Lemma X23_empty_input_witness :
  do_validate_input (Demo.world_of (Demo.answer [] []))
    (set_input "" (set_platform "cef" Demo.bare))
  = ([EStderr ("Either --input or --input-file is required" ++ nl)], Exit 1)
  /\ do_validate_input (Demo.world_of (Demo.answer [] []))
       (set_input_file "sample.log" (set_platform "cef" Demo.bare))
     = ([EOpen "sample.log"], Ret (PStr "Jan 1 host msg", PNone)).
Proof.
  split.
  - apply (proj1 (X23_empty_input (Demo.world_of (Demo.answer [] []))
                    (set_input "" (set_platform "cef" Demo.bare)))); cbn; auto.
  - apply (proj2 (X23_empty_input (Demo.world_of (Demo.answer [] []))
                    (set_input_file "sample.log" (set_platform "cef" Demo.bare)))
             "sample.log" "Jan 1 host msg" "Jan 1 host msg");
      [reflexivity | discriminate | reflexivity | reflexivity | reflexivity].
Defined.

(** ** The order of the reads *)

Lemma opened_app t t' : opened (t +++ t') = opened t +++ opened t'.
Proof. apply flat_map_app. Qed.

Lemma step_reads_bind {A B} (m : M A) (k : A -> M B) f g :
  step_reads m f -> (forall a, step_reads (k a) g) -> step_reads (bind m k) (f +++ g).
Proof.
  unfold step_reads. destruct m as [t [a|c|e]]; cbn [bind fst snd]; intros (Hret & rest & Hpre) Hk.
  - specialize (Hk a). destruct (k a) as [t' o]. cbn [fst snd] in *.
    destruct Hk as (Hret' & rest' & Hpre'). rewrite opened_app, (Hret a eq_refl).
    split.
    + intros b Hb. now rewrite (Hret' b Hb).
    + exists rest'. rewrite Hpre' at 1. now rewrite app_assoc.
  - split; [discriminate|]. exists (rest +++ g). rewrite Hpre at 1. now rewrite app_assoc.
  - split; [discriminate|]. exists (rest +++ g). rewrite Hpre at 1. now rewrite app_assoc.
Qed.

Lemma step_reads_none {A} (m : M A) : opened (fst m) = [] -> step_reads m [].
Proof. intros H. split; [auto | exists []; now rewrite H]. Qed.

Lemma step_reads_stop {A} (m : M A) files :
  opened (fst m) = [] -> (forall a, snd m <> Ret a) -> step_reads m files.
Proof.
  intros H Hno. split; [intros a Ha; now destruct (Hno a) | exists files; now rewrite H].
Qed.

Lemma step_reads_load w path as_json :
  step_reads (_load_file_content w path as_json) [path].
Proof.
  unfold _load_file_content.
  destruct (fs w path) as [e|e|raw];
    try (apply step_reads_stop; [reflexivity | discriminate]).
  destruct (utf8_decode w raw) as [content|e].
  - destruct as_json.
    + destruct (json_loads w content); split;
        try discriminate; try reflexivity; exists []; reflexivity.
    + split; [reflexivity | exists []; reflexivity].
  - split; [discriminate | exists []; reflexivity].
Qed.

Lemma given_cases o :
  (truthy_arg o = false /\ given o = [])
  \/ (exists path, o = Some path /\ truthy_arg o = true /\ given o = [path]).
Proof.
  destruct o as [path|]; cbn; [|auto].
  destruct (negb (String.eqb path "")); [right; eauto | auto].
Qed.

Lemma step_reads_load_mapping w ns :
  step_reads (_load_mapping w ns) (given (args.mapping_file ns)).
Proof.
  unfold _load_mapping.
  destruct (given_cases (args.mapping_file ns)) as [(-> & ->) | (path & -> & -> & ->)].
  - apply step_reads_none.
    destruct (truthy_arg (args.mapping ns)); [|reflexivity].
    destruct (args.mapping ns) as [text|]; [|reflexivity].
    destruct (json_loads w text); reflexivity.
  - destruct (fs w path) as [e|e|content];
      try (apply step_reads_stop; [reflexivity | discriminate]).
    destruct (yaml_safe_load w content); split;
      try discriminate; try reflexivity; exists []; reflexivity.
Qed.

Lemma step_reads_checked w path msg :
  step_reads
    (v <- _load_file_content w path true ;;
     if negb (is_list v) then reportError msg else ret v) [path].
Proof.
  rewrite <- (app_nil_r [path]). apply step_reads_bind; [apply step_reads_load|].
  intros v. destruct (negb (is_list v)).
  - apply step_reads_stop; [reflexivity | discriminate].
  - apply step_reads_none. reflexivity.
Qed.

Lemma step_reads_request w ns :
  step_reads (do_validate_request w ns) (files_in_order ns).
Proof.
  unfold do_validate_request, files_in_order.
  apply step_reads_bind.
  { unfold do_validate_mapping.
    rewrite <- (app_nil_r (given (args.mapping_file ns))).
    apply step_reads_bind; [apply step_reads_load_mapping|]. intros mapping.
    apply step_reads_none.
    destruct (is_None mapping && _); [|reflexivity].
    destruct (negb _); reflexivity. }
  intros mapping. apply step_reads_bind.
  { unfold do_validate_mappings.
    destruct (given_cases (args.mappings_file ns)) as [(-> & ->) | (path & -> & -> & ->)];
      [apply step_reads_none; reflexivity | apply step_reads_checked]. }
  intros mappings. apply step_reads_bind.
  { unfold do_validate_input.
    rewrite <- (app_nil_r (given (args.input_file ns))).
    apply step_reads_bind.
    - destruct (given_cases (args.input_file ns)) as [(-> & ->) | (path & -> & -> & ->)].
      + apply step_reads_none.
        destruct (truthy_arg (args.input ns)); [|reflexivity].
        destruct (args.input ns) as [text|]; [|reflexivity].
        destruct (args.json_input ns); [|reflexivity].
        destruct (json_loads w text) as [v|e|exn e]; [|reflexivity|reflexivity].
        destruct (negb (is_list v)); reflexivity.
      + destruct (args.json_input ns).
        * rewrite <- (app_nil_r [path]). apply step_reads_bind; [apply step_reads_load|].
          intros v. destruct (negb (is_list v)).
          -- apply step_reads_stop; [reflexivity | discriminate].
          -- apply step_reads_none. reflexivity.
        * rewrite <- (app_nil_r [path]). apply step_reads_bind; [apply step_reads_load|].
          intros v. apply step_reads_none. reflexivity.
    - intros [text_input json_input]. apply step_reads_none.
      destruct (is_None text_input && is_None json_input); reflexivity. }
  intros inputs.
  rewrite <- (app_nil_r (given (args.indexing_file ns))).
  apply step_reads_bind.
  { unfold do_validate_indexing.
    destruct (given_cases (args.indexing_file ns)) as [(-> & ->) | (path & -> & -> & ->)];
      [apply step_reads_none; reflexivity | apply step_reads_checked]. }
  intros indexing. apply step_reads_none. reflexivity.
Qed.

Lemma prints_only_opened t : forallb is_stdout t = true -> opened t = [].
Proof.
  induction t as [|e t IH]; cbn; [auto|].
  destruct e; cbn; try discriminate. exact IH.
Qed.

(** X24: the files are read in a fixed order, mapping file, mappings file,
    input file, indexing file, each at most once, and empty names are
    skipped.  What a run has read is always a first part of that list, and
    a run that calls the service has read all of it before the call. *)
Theorem X24_read_order w ns :
  (exists rest, files_in_order ns = opened (fst (do_validate w ns)) +++ rest)
  /\ (forall req, In (EApiCall req) (fst (do_validate w ns)) ->
      opened (fst (do_validate w ns)) = files_in_order ns).
Proof.
  destruct (step_reads_request w ns) as (Hret & rest & Hpre).
  destruct (request_cases w ns)
    as [(t & req & Hreq & Ht) | [(t & msg & Hreq & Ht & _) | (t & exn & Hreq & Ht)]].
  - rewrite Hreq in Hret, Hpre. cbn [fst snd] in *.
    destruct (run_after_request w ns t req Hreq) as (t' & o & Hrun & Hcases).
    assert (Hrest : opened t' = []).
    { destruct Hcases as [-> | [(rendered & -> & Hr) | (e & -> & _ & _)]];
        try reflexivity.
      change (opened (EApiCall req :: rendered)) with (opened rendered).
      now apply prints_only_opened. }
    rewrite Hrun. cbn [fst]. rewrite opened_app, Hrest, app_nil_r, (Hret req eq_refl).
    split; [exists []; now rewrite app_nil_r | auto].
  - rewrite (request_failed w ns _ 1 Hreq). rewrite Hreq in Hpre. cbn [fst] in *.
    split; [eauto|].
    intros req Hin. apply In_api_calls in Hin.
    destruct (reported_streams t msg Ht) as (_ & _ & Hapi). rewrite Hapi in Hin.
    destruct Hin.
  - rewrite (request_raised w ns _ _ Hreq). rewrite Hreq in Hpre. cbn [fst] in *.
    split; [eauto|].
    intros req Hin. apply In_api_calls in Hin.
    destruct (quiet_silent t Ht) as (_ & _ & Hapi). rewrite Hapi in Hin.
    destruct Hin.
Qed.

Lemma X24_read_order_witness :
  opened (fst (do_validate (Demo.world_of (Demo.answer [] [])) (Demo.both "{" "x")))
  = ["map.yaml"; "sample.log"].
Proof.
  apply (proj2 (X24_read_order (Demo.world_of (Demo.answer [] [])) (Demo.both "{" "x"))
           {| req_platform := "text"; req_hostname := None;
              req_mapping := PDict [("parsing_re", PStr ".*")];
              req_mappings := PNone; req_indexing := PNone;
              req_text_input := PStr "Jan 1 host msg"; req_json_input := PNone |}).
  cbn. auto.
Defined.

(** ** The numbering of the summary *)

Lemma show_events_returns w events : forall i t,
  show_events w i events = (t, Ret tt) ->
  exists ls, events_lines w i events = Some ls /\ t = map EStdout ls.
Proof.
  induction events as [|event rest IH]; intros i t; cbn [show_events events_lines].
  - intros H. injection H as <-. exists []. auto.
  - destruct (event_lines w i event) as [l1|] eqn:H1.
    + rewrite (show_event_shaped w i event l1 H1). cbn [bind].
      destruct (show_events w (S i) rest) as [t' [[]|c|e]] eqn:H2; try discriminate.
      destruct (IH (S i) t' H2) as (l2 & -> & ->).
      intros H. injection H as <-. exists (l1 +++ l2). split; [reflexivity|].
      now rewrite map_app.
    + destruct (show_event_misshaped w i event H1) as (t0 & ->). discriminate.
Qed.

Lemma filter_field_lines w fields : filter (prefix "Event ") (field_lines w fields) = [].
Proof.
  unfold field_lines.
  induction (filter (fun kv => negb (String.eqb (fst kv) "routing")) fields)
    as [|kv l IH]; [reflexivity|].
  cbn [map filter]. rewrite IH. reflexivity.
Qed.

Lemma filter_event_lines w i event ls :
  event_lines w i event = Some ls ->
  filter (prefix "Event ") ls = [("Event " ++ str_of_nat i ++ ":") ++ nl].
Proof.
  unfold event_lines, hostname_lines.
  destruct event as [| | | | |l|d]; try discriminate.
  assert (Hfields : forall host fields,
             filter (prefix "Event ") host = [] ->
             filter (prefix "Event ")
               ([("Event " ++ str_of_nat i ++ ":") ++ nl]
                +++ host +++ field_lines w fields +++ [nl])
             = [("Event " ++ str_of_nat i ++ ":") ++ nl]).
  { intros host fields Hh.
    change ([("Event " ++ str_of_nat i ++ ":") ++ nl]
            +++ host +++ field_lines w fields +++ [nl])
      with ((("Event " ++ str_of_nat i ++ ":") ++ nl)
            :: (host +++ field_lines w fields +++ [nl])).
    cbn [filter].
    replace (prefix "Event " (("Event " ++ str_of_nat i ++ ":") ++ nl)) with true.
    - now rewrite !filter_app, Hh, filter_field_lines.
    - symmetry. destruct (str_of_nat i); reflexivity. }
  destruct (truthy (dict_get d "routing" (PDict []))).
  - destruct (as_dict (dict_get d "routing" (PDict []))) as [rd|]; [|discriminate].
    destruct (as_dict (dict_get rd "this" (PDict []))) as [td|]; [|discriminate].
    destruct (as_dict (dict_get d "event" (PDict d))) as [fields|]; [|discriminate].
    intros H. injection H as <-. apply Hfields.
    destruct (truthy _); reflexivity.
  - destruct (as_dict (dict_get d "event" (PDict d))) as [fields|]; [|discriminate].
    intros H. injection H as <-. exact (Hfields [] fields eq_refl).
Qed.

(** A text that is made of lines, each ending in its line break, has
    those lines. *)
Lemma text_lines_record c rest :
  single_line c -> text_lines ((c ++ nl) ++ rest) = (c ++ nl) :: text_lines rest.
Proof.
  unfold single_line. induction c as [|a c IH]; intros Hc; [reflexivity|].
  cbn [newlines] in Hc. cbn [append text_lines].
  destruct (Ascii.eqb a (ascii_of_nat 10)); [discriminate|].
  rewrite (IH Hc). reflexivity.
Qed.

Lemma text_lines_records l :
  Forall (fun s => exists c, s = c ++ nl /\ single_line c) l ->
  text_lines (fold_right append "" l) = l.
Proof.
  induction 1 as [|s l (c & -> & Hc) _ IH]; [reflexivity|].
  cbn [fold_right]. rewrite (text_lines_record c _ Hc), IH. reflexivity.
Qed.

(** Every text the summary prints ends in the line break of [print]. *)
Lemma events_lines_end w events : forall i ls,
  events_lines w i events = Some ls ->
  Forall (fun s => exists c, s = c ++ nl) ls.
Proof.
  induction events as [|event rest IH]; intros i ls; cbn [events_lines].
  - intros H. injection H as <-. constructor.
  - destruct (event_lines w i event) as [l1|] eqn:H1; [|discriminate].
    destruct (events_lines w (S i) rest) as [l2|] eqn:H2; [|discriminate].
    intros H. injection H as <-. apply Forall_app. split; [|exact (IH (S i) l2 H2)].
    clear IH H2. unfold event_lines in H1.
    destruct event as [| | | | |l|d]; try discriminate.
    destruct (hostname_lines w d) as [host|] eqn:Hhost; [|discriminate].
    destruct (as_dict (dict_get d "event" (PDict d))) as [fields|]; [|discriminate].
    injection H1 as <-.
    constructor; [now exists ("Event " ++ str_of_nat i ++ ":")|].
    apply Forall_app. split.
    + unfold hostname_lines in Hhost.
      destruct (truthy (dict_get d "routing" (PDict []))).
      * destruct (as_dict (dict_get d "routing" (PDict []))) as [rd|]; [|discriminate].
        destruct (as_dict (dict_get rd "this" (PDict []))) as [td|]; [|discriminate].
        injection Hhost as <-. destruct (truthy _); [|constructor].
        constructor; [|constructor].
        now exists ("  hostname: "
                    ++ py_str w (dict_get rd "hostname" (dict_get td "hostname" (PStr "")))).
      * injection Hhost as <-. constructor.
    + apply Forall_app. split.
      * unfold field_lines. apply Forall_forall. intros s Hs.
        apply in_map_iff in Hs. destruct Hs as (kv & <- & _). eauto.
      * repeat constructor. now exists "".
Qed.

Lemma one_line_record s :
  (exists c, s = c ++ nl) -> newlines s = 1 ->
  exists c, s = c ++ nl /\ single_line c.
Proof.
  intros (c & ->) Hn. exists c. split; [reflexivity|].
  rewrite newlines_app in Hn. cbn in Hn. unfold single_line. lia.
Qed.

(** A field whose value holds a line break followed by [Event 9:] puts a
    line [Event 9:] on stdout that numbers no event. *)
Lemma summary_line_break w :
  text_lines
    (stdout_text
       (fst (show_events w 1
               [PDict [("event", PDict [("a", PStr ("x" ++ nl ++ "Event 9:"))])]])))
  = ["Event 1:" ++ nl; "  a: x" ++ nl; "Event 9:" ++ nl; nl].
Proof. reflexivity. Qed.

(** X25: in a summary that runs to its end the events are numbered from 1
    in the order of the response: the texts handed to [print] that begin
    with [Event ] are [Event 1:], [Event 2:], ... one for each result,
    whatever hostname and field texts lie between them.  When no printed
    text holds a line break besides the one [print] ends it with (no
    hostname, key or value brings one in), the lines of stdout are the
    printed texts, and so the lines of stdout that begin with [Event ] are
    exactly these. *)
Theorem X25_summary_numbering w events : forall i t,
  show_events w i events = (t, Ret tt) ->
  filter (prefix "Event ") (stdout_of t)
  = map (fun k => ("Event " ++ str_of_nat k ++ ":") ++ nl) (seq i (length events))
  /\ (Forall (fun s => newlines s = 1) (stdout_of t) ->
      text_lines (stdout_text t) = stdout_of t
      /\ filter (prefix "Event ") (text_lines (stdout_text t))
         = map (fun k => ("Event " ++ str_of_nat k ++ ":") ++ nl)
             (seq i (length events))).
Proof.
  intros i t H. destruct (show_events_returns w events i t H) as (ls & Hls & ->).
  rewrite stdout_of_prints. clear H.
  assert (Hnum : filter (prefix "Event ") ls
                 = map (fun k => ("Event " ++ str_of_nat k ++ ":") ++ nl)
                     (seq i (length events))).
  { revert i ls Hls.
    induction events as [|event rest IH]; intros i ls; cbn [events_lines].
    - intros H. injection H as <-. reflexivity.
    - destruct (event_lines w i event) as [l1|] eqn:H1; [|discriminate].
      destruct (events_lines w (S i) rest) as [l2|] eqn:H2; [|discriminate].
      intros H. injection H as <-.
      rewrite filter_app, (filter_event_lines w i event l1 H1), (IH (S i) l2 H2).
      reflexivity. }
  split; [exact Hnum|]. intros Hone.
  assert (Hlines : text_lines (stdout_text (map EStdout ls)) = ls).
  { unfold stdout_text. rewrite stdout_of_prints. apply text_lines_records.
    pose proof (events_lines_end w events i ls Hls) as Hend.
    rewrite Forall_forall in *. intros s Hs.
    exact (one_line_record s (Hend s Hs) (Hone s Hs)). }
  rewrite Hlines. split; [reflexivity | exact Hnum].
Qed.

Lemma X25_summary_numbering_witness :
  filter (prefix "Event ")
    (text_lines
       (stdout_text (fst (show_events (Demo.world_of (Demo.answer [] [])) 1
                            [Demo.event_ab; Demo.event_ab]))))
  = ["Event 1:" ++ nl; "Event 2:" ++ nl].
Proof.
  destruct (X25_summary_numbering (Demo.world_of (Demo.answer [] []))
              [Demo.event_ab; Demo.event_ab] 1 _ eq_refl) as (_ & H).
  apply H. repeat constructor.
Defined.

(** [printData] writes one record to stdout and returns, for every value. *)
Lemma printData_prints w data :
  exists text, printData w data = ([EStdout (text ++ nl)], Ret tt).
Proof. unfold printData. destruct (is_str data); eexists; reflexivity. Qed.
